(** * Verification of example_code.py (embedded_vision_summit_2021)

    A shallow embedding of the toy classifier, its channel schedule, the
    calibration data reader, the benchmark helpers and the deployment
    orchestrators, with the process-wide state (object heap, quantization
    engine selector, file system, console, random draws, clock) passed
    explicitly. *)

From stdpp Require Import base gmap strings list.
From Stdlib Require Import ZArith QArith.

Open Scope Z_scope.

(* ------------------------------------------------------------------ *)
(** ** Channel rounding: torchvision.models.mobilenetv2._make_divisible *)

(** Library helper imported by the script:
<<
def _make_divisible(v, divisor, min_value=None):
    if min_value is None:
        min_value = divisor
    new_v = max(min_value, int(v + divisor / 2) // divisor * divisor)
    if new_v < 0.9 * v:
        new_v += divisor
    return new_v
>>
    [int(v + divisor / 2)] truncates toward zero, hence [Z.quot].  The
    float comparison [new_v < 0.9 * v] is written [10 * new_v < 9 * v];
    on the integer arguments used here both sides agree. *)
Definition _make_divisible (v divisor : Z) (min_value : option Z) : Z :=
  let min_value := match min_value with None => divisor | Some m => m end in
  let new_v := Z.max min_value (Z.quot (2 * v + divisor) 2 / divisor * divisor) in
  if 10 * new_v <? 9 * v then new_v + divisor else new_v.

Definition make_div8 (v : Z) : Z := _make_divisible v 8 None.

(** [block_params] of [ToyClassifier.__init__]: (in, out, stride). *)
Definition block_params : list (Z * Z * Z) :=
  [(3, 18, 1); (18, 36, 2); (36, 74, 1); (74, 146, 2);
   (146, 290, 1); (290, 578, 2); (578, 1154, 1); (1154, 1154, 2)].

(** The raw output widths of the schedule. *)
Definition schedule_widths : list Z := map (fun '(_, o, _) => o) block_params.

(* ------------------------------------------------------------------ *)
(** ** Layers, blocks and the classifier, with their shape semantics *)

Inductive Layer :=
| Conv2d (cin cout k stride pad groups : Z)
| BatchNorm2d (num_features : Z)
| ReLU
| AdaptiveAvgPool2d (out_size : Z)
| QuantStub
| DeQuantStub.

(** [ConvBNReLU.__init__]: 3x3 conv, padding 1, no bias; batch norm; ReLU. *)
Definition ConvBNReLU (in_channels out_channels stride : Z) : list Layer :=
  [Conv2d in_channels out_channels 3 stride 1 1;
   BatchNorm2d out_channels; ReLU].

(** [OptimizedConvBNReLU.__init__]: depthwise 3x3, pointwise 1x1, BN, ReLU. *)
Definition OptimizedConvBNReLU (in_channels out_channels stride : Z) : list Layer :=
  [Conv2d in_channels in_channels 3 stride 1 in_channels;
   Conv2d in_channels out_channels 1 1 0 1;
   BatchNorm2d out_channels; ReLU].

(** The layer sequence of each block and the classifier head, with the
    channel count of the final 1x1 conv ([in_features]). *)
Record ToyClassifier := mkToyClassifier {
  tc_blocks : list (list Layer);
  tc_pooling : Layer;
  tc_classifier : Layer;
  tc_quant : Layer;
  tc_dequant : Layer;
  tc_training : bool;
}.

(** [ToyClassifier.__init__(optimized)]. *)
Definition ToyClassifier_init (optimized : bool) : ToyClassifier :=
  let '(blocks, in_features) :=
    if optimized then
      let first := match block_params with
                   | (_, o, s) :: _ => [OptimizedConvBNReLU 3 (make_div8 o) s]
                   | [] => [] end in
      (first ++ map (fun '(i, o, s) =>
                       OptimizedConvBNReLU (make_div8 i) (make_div8 o) s)
                    (tail block_params),
       make_div8 1154)
    else
      (map (fun '(i, o, s) => ConvBNReLU i o s) block_params, 1154) in
  {| tc_blocks := blocks;
     tc_pooling := AdaptiveAvgPool2d 1;
     tc_classifier := Conv2d in_features 1000 1 1 0 1;
     tc_quant := QuantStub;
     tc_dequant := DeQuantStub;
     tc_training := true |}.

(** [ToyClassifier.train(mode)]; [eval()] is [train(False)]. *)
Definition ToyClassifier_train (mode : bool) (m : ToyClassifier) : ToyClassifier :=
  {| tc_blocks := tc_blocks m; tc_pooling := tc_pooling m;
     tc_classifier := tc_classifier m; tc_quant := tc_quant m;
     tc_dequant := tc_dequant m; tc_training := mode |}.

(** Output size of one spatial dimension of a convolution; the framework
    raises an error when it would be below 1. *)
Definition conv_out (h k stride pad : Z) : option Z :=
  if (stride <=? 0) || (h + 2 * pad <? k) then None
  else Some ((h + 2 * pad - k) / stride + 1).

(** Shape transfer of one layer on a 4-D (N, C, H, W) tensor, in training
    or eval mode; in training mode batch norm raises when there is only one
    value per channel (N * H * W = 1). *)
Definition layer_shape (training : bool) (l : Layer) (s : list Z) : option (list Z) :=
  match l, s with
  | Conv2d cin cout k st p g, [n; c; h; w] =>
      if (c =? cin) && (g >? 0) && (cin mod g =? 0) && (cout mod g =? 0) then
        match conv_out h k st p, conv_out w k st p with
        | Some h', Some w' => Some [n; cout; h'; w']
        | _, _ => None
        end
      else None
  | BatchNorm2d f, [n; c; h; w] =>
      if c =? f then (if training && (n * h * w =? 1) then None else Some s) else None
  | ReLU, _ => Some s
  | AdaptiveAvgPool2d o, [n; c; h; w] =>
      if (h >? 0) && (w >? 0) then Some [n; c; o; o] else None
  | QuantStub, _ | DeQuantStub, _ => Some s
  | _, _ => None
  end.

Fixpoint layers_shape (training : bool) (ls : list Layer) (s : list Z) : option (list Z) :=
  match ls with
  | [] => Some s
  | l :: ls' => match layer_shape training l s with
                | Some s' => layers_shape training ls' s'
                | None => None
                end
  end.

(** [ToyClassifier.forward], as a shape transformer. *)
Definition forward_shape (m : ToyClassifier) (s : list Z) : option (list Z) :=
  match layers_shape (tc_training m) [tc_quant m] s with
  | None => None
  | Some s1 =>
      match layers_shape (tc_training m) (concat (tc_blocks m)) s1 with
      | None => None
      | Some s2 => layers_shape (tc_training m) [tc_pooling m; tc_classifier m; tc_dequant m] s2
      end
  end.

(** Parameter count of a layer ([p.numel()] summed over parameters that
    require grad): conv weight [cout * cin/groups * k * k] plus the bias
    when present, batch-norm weight and bias. *)
Definition layer_params (bias : bool) (l : Layer) : Z :=
  match l with
  | Conv2d cin cout k _ _ g =>
      cout * (cin / g) * k * k + (if bias then cout else 0)
  | BatchNorm2d f => 2 * f
  | _ => 0
  end.

(** [sum(p.numel() for p in model.parameters() if p.requires_grad)]; the
    block convolutions have [bias=False], the classifier conv has a bias. *)
Definition n_params (m : ToyClassifier) : Z :=
  fold_right Z.add 0 (map (layer_params false) (concat (tc_blocks m)))
  + layer_params true (tc_classifier m).

(** Output channels of a block: those of its last convolution. *)
Definition block_out_channels (b : list Layer) : option Z :=
  fold_left (fun acc l => match l with Conv2d _ cout _ _ _ _ => Some cout | _ => acc end)
            b None.

(* ------------------------------------------------------------------ *)
(** ** Tensors and the ONNX calibration data reader *)

(** A tensor: its shape and the random draw its values come from. *)
Record Tensor := mkTensor { t_dims : list Z; t_id : nat }.

(** [t.unsqueeze(0)] (and [.numpy()], which keeps shape and values). *)
Definition unsqueeze0 (t : Tensor) : Tensor := mkTensor (1 :: t_dims t) (t_id t).

(** One batch yielded by a DataLoader, as the list of its frames along the
    first axis ([for input_frame in inputs]). *)
Definition Batch := list Tensor.

(** A named-input record [{input_name: d}]. *)
Definition InputRecord := list (string * Tensor).

Record ONNXQuantizationDataReader := mkReader {
  r_data : list Tensor;
  r_iter : list InputRecord;   (** remaining items of [self.iter] *)
}.

(** [ONNXQuantizationDataReader.__init__(quant_loader, input_name)]. *)
Definition ONNXQuantizationDataReader_init (quant_loader : list Batch)
    (input_name : string) : ONNXQuantizationDataReader :=
  let data := fold_left (fun acc (inputs : Batch) =>
                 fold_left (fun acc' input_frame => acc' ++ [unsqueeze0 input_frame])
                           inputs acc) quant_loader [] in
  mkReader data (map (fun d => [(input_name, d)]) data).

(** [get_next]: [next(self.iter, None)]. *)
Definition get_next (r : ONNXQuantizationDataReader)
    : option InputRecord * ONNXQuantizationDataReader :=
  match r_iter r with
  | [] => (None, r)
  | x :: xs => (Some x, mkReader (r_data r) xs)
  end.

(** Results of [k] successive [get_next] calls. *)
Fixpoint get_next_n (k : nat) (r : ONNXQuantizationDataReader) : list (option InputRecord) :=
  match k with
  | O => []
  | S k' => let '(x, r') := get_next r in x :: get_next_n k' r'
  end.

(** [quantize_static]'s calibration pull: call [get_next] until it
    returns [None]; the records consumed. *)
Fixpoint drain (fuel : nat) (r : ONNXQuantizationDataReader) : list InputRecord :=
  match fuel with
  | O => []
  | S f => match get_next r with
           | (Some x, r') => x :: drain f r'
           | (None, _) => []
           end
  end.

(* ------------------------------------------------------------------ *)
(** ** Models as heap objects *)

(** The mutable state of an [nn.Module] instance the script touches. *)
Record Model := mkModel {
  m_optimized : bool;
  m_params : list Z;          (** parameter values *)
  m_training : bool;          (** [module.training] *)
  m_fused : bool;
  m_qconfig : option string;
  m_stubs : bool;             (** [quant]/[dequant] are the stubs, not Identity *)
  m_prepared : bool;          (** observers inserted by [prepare] *)
  m_observed : list nat;      (** inputs recorded by the observers *)
  m_quantized : bool;
}.

Definition set_training (b : bool) (m : Model) : Model :=
  {| m_optimized := m_optimized m; m_params := m_params m; m_training := b;
     m_fused := m_fused m; m_qconfig := m_qconfig m; m_stubs := m_stubs m;
     m_prepared := m_prepared m; m_observed := m_observed m;
     m_quantized := m_quantized m |}.

Definition set_qconfig (q : string) (m : Model) : Model :=
  {| m_optimized := m_optimized m; m_params := m_params m; m_training := m_training m;
     m_fused := m_fused m; m_qconfig := Some q; m_stubs := m_stubs m;
     m_prepared := m_prepared m; m_observed := m_observed m;
     m_quantized := m_quantized m |}.

Definition strip_stubs (m : Model) : Model :=
  {| m_optimized := m_optimized m; m_params := m_params m; m_training := m_training m;
     m_fused := m_fused m; m_qconfig := m_qconfig m; m_stubs := false;
     m_prepared := m_prepared m; m_observed := m_observed m;
     m_quantized := m_quantized m |}.

Definition observe (ids : list nat) (m : Model) : Model :=
  {| m_optimized := m_optimized m; m_params := m_params m; m_training := m_training m;
     m_fused := m_fused m; m_qconfig := m_qconfig m; m_stubs := m_stubs m;
     m_prepared := m_prepared m; m_observed := m_observed m ++ ids;
     m_quantized := m_quantized m |}.

(* ------------------------------------------------------------------ *)
(** ** The runtime: floats, clock, file sizes and external passes *)

(** Float arithmetic, the wall clock ([time()] readings in order), file
    sizes, weight initialisation and the framework passes whose internals
    the script does not define. *)
Class Runtime (R : Type) := {
  num_zero : R;
  num_add : R -> R -> R;
  num_sub : R -> R -> R;
  num_mul : R -> R -> R;
  num_div : R -> R -> R;
  num_of_Z : Z -> R;
  clock : nat -> R;
  file_size : string -> R;
  init_params : bool -> nat -> list Z;
  fold_bn : list Z -> list Z;
  quantize_params : list nat -> list Z -> list Z;
  (** [torch.backends.quantized.supported_engines] of the installed build *)
  supported_engines : list string;
}.

Section Program.
Context {R : Type} `{Runtime R}.

(** A console line [f'Benchmarking {p}: Avg. inference@CPU: {t:3.2f} ms,
    Size: {s:2.2f} MB'] or [f'Model {name} has {n / 1e6:2.2f} M parameters'];
    the numbers keep the precision of their format spec. *)
Inductive Line :=
| LBench (path : string) (latency : R) (latency_prec : nat) (size : R) (size_prec : nat)
| LParams (name : string) (millions : R) (prec : nat).

Inductive Event :=
| EvRand (id : nat)
| EvTime
| EvForward (target : string) (input : nat)
| EvEngine (backend : string).

Record World := mkWorld {
  w_heap : gmap nat Model;
  w_next : nat;
  w_engine : string;      (** [torch.backends.quantized.engine] *)
  w_files : list string;  (** files written, in order *)
  w_out : list Line;      (** console *)
  w_draws : nat;          (** random tensors drawn so far *)
  w_ticks : nat;          (** [time()] readings so far *)
  w_trace : list Event;
}.

Definition M (A : Type) := World -> option (A * World).

Definition mret {A} (x : A) : M A := fun w => Some (x, w).
Definition mbind {A B} (c : M A) (k : A -> M B) : M B :=
  fun w => match c w with Some (x, w') => k x w' | None => None end.
Definition mfail {A} : M A := fun _ => None.

Notation "'do' x <- c ; k" := (mbind c (fun x => k))
  (at level 60, c at next level, right associativity).
Notation "'do' ' pat <- c ; k" :=
  (mbind c (fun x => match x with pat => k end))
  (at level 60, pat pattern, c at next level, right associativity).
Notation "'do' c ; k" := (do _ <- c ; k)
  (at level 60, right associativity).

(** *** Primitive effects *)

Definition get_model (l : nat) : M Model :=
  fun w => match w_heap w !! l with Some m => Some (m, w) | None => None end.

Definition put_model (l : nat) (m : Model) : M unit :=
  fun w => Some (tt, mkWorld (<[l := m]> (w_heap w)) (w_next w) (w_engine w)
                       (w_files w) (w_out w) (w_draws w) (w_ticks w) (w_trace w)).

(** A new object at the next free address. *)
Definition alloc (m : Model) : M nat :=
  fun w => Some (w_next w,
                 mkWorld (<[w_next w := m]> (w_heap w)) (S (w_next w)) (w_engine w)
                   (w_files w) (w_out w) (w_draws w) (w_ticks w) (w_trace w)).

(** [torch.backends.quantized.engine = backend]; an engine the build does
    not support raises. *)
Definition set_engine (backend : string) : M unit :=
  fun w => if existsb (String.eqb backend) supported_engines then
             Some (tt, mkWorld (w_heap w) (w_next w) backend (w_files w) (w_out w)
                         (w_draws w) (w_ticks w) (w_trace w ++ [EvEngine backend]))
           else None.

Definition write_file (path : string) : M unit :=
  fun w => Some (tt, mkWorld (w_heap w) (w_next w) (w_engine w) (w_files w ++ [path])
                       (w_out w) (w_draws w) (w_ticks w) (w_trace w)).

Definition print (ln : Line) : M unit :=
  fun w => Some (tt, mkWorld (w_heap w) (w_next w) (w_engine w) (w_files w)
                       (w_out w ++ [ln]) (w_draws w) (w_ticks w) (w_trace w)).

(** [torch.rand(dims)]: a fresh draw. *)
Definition rand (dims : list Z) : M Tensor :=
  fun w => Some (mkTensor dims (w_draws w),
                 mkWorld (w_heap w) (w_next w) (w_engine w) (w_files w) (w_out w)
                   (S (w_draws w)) (w_ticks w) (w_trace w ++ [EvRand (w_draws w)])).

(** [time()]: the next clock reading. *)
Definition time : M R :=
  fun w => Some (clock (w_ticks w),
                 mkWorld (w_heap w) (w_next w) (w_engine w) (w_files w) (w_out w)
                   (w_draws w) (S (w_ticks w)) (w_trace w ++ [EvTime])).

(** An inference on a loaded artifact ([torch.jit.load(p)] or
    [rt.InferenceSession(p)]). *)
Definition run_artifact (target : string) (t : Tensor) : M unit :=
  fun w => Some (tt, mkWorld (w_heap w) (w_next w) (w_engine w) (w_files w) (w_out w)
                       (w_draws w) (w_ticks w) (w_trace w ++ [EvForward target (t_id t)])).

(** *** Module operations *)

(** [deepcopy(model)]. *)
Definition deepcopy (l : nat) : M nat := do m <- get_model l; alloc m.

(** [model.eval()], which returns the module itself. *)
Definition model_eval (l : nat) : M nat :=
  do m <- get_model l; do put_model l (set_training false m); mret l.

Definition fused_model (m : Model) : Model :=
  {| m_optimized := m_optimized m; m_params := fold_bn (m_params m);
     m_training := m_training m; m_fused := true; m_qconfig := m_qconfig m;
     m_stubs := m_stubs m; m_prepared := m_prepared m;
     m_observed := m_observed m; m_quantized := m_quantized m |}.

(** [ToyClassifier.fuse]: in-place [fuse_modules] on every block; the
    framework refuses a block already fused. *)
Definition model_fuse (l : nat) : M unit :=
  do m <- get_model l;
  if m_fused m then mfail else put_model l (fused_model m).

(** [torch.quantization.prepare(model)] (not in place: a copy with observers). *)
Definition prepare (l : nat) : M nat :=
  do m <- get_model l;
  alloc {| m_optimized := m_optimized m; m_params := m_params m;
           m_training := m_training m; m_fused := m_fused m; m_qconfig := m_qconfig m;
           m_stubs := m_stubs m; m_prepared := match m_qconfig m with Some _ => true | None => false end;
           m_observed := []; m_quantized := m_quantized m |}.

(** [torch.quantization.convert(model_prepared)] (not in place; with
    [remove_qconfig=True], the default, the copy has no qconfig). *)
Definition convert (l : nat) : M nat :=
  do m <- get_model l;
  alloc {| m_optimized := m_optimized m;
           m_params := quantize_params (m_observed m) (m_params m);
           m_training := m_training m; m_fused := m_fused m; m_qconfig := None;
           m_stubs := m_stubs m; m_prepared := false;
           m_observed := []; m_quantized := m_prepared m |}.

(** [model(x)] on a heap object: observers record the inputs. *)
Definition model_call (l : nat) (x : Batch) : M unit :=
  do m <- get_model l;
  if m_prepared m then put_model l (observe (map t_id x) m) else mret tt.

(** [script_and_serialize]: scripting reads the module, then the file is saved. *)
Definition script_and_serialize (l : nat) (path : string) (opt_backend : option string)
    : M unit :=
  do _ <- get_model l; write_file path.

(** [trace_and_serialize]: tracing runs one forward pass on [example]. *)
Definition trace_and_serialize (l : nat) (example : Tensor) (path : string)
    (opt_backend : option string) : M unit :=
  do model_call l [example]; write_file path.

(** *** Benchmark helpers *)

(** The loop shared by [benchmark_model] and [benchmark_onnx_model]:
    sample, read the clock, run, read the clock, accumulate. *)
Fixpoint bench_loop (run : Tensor -> M unit) (k : nat) (avg_time : R) : M R :=
  match k with
  | O => mret avg_time
  | S k' =>
      do tensor <- rand [1; 3; 224; 224];
      do start <- time;
      do run tensor;
      do stop <- time;
      bench_loop run k' (num_add avg_time (num_sub stop start))
  end.

(** [avg_time /= n_samples] raises [ZeroDivisionError] when [n_samples = 0]. *)
Definition bench_finish (n_samples : nat) (avg_time : R) : M R :=
  if Nat.eqb n_samples 0 then mfail
  else mret (num_mul (num_div avg_time (num_of_Z (Z.of_nat n_samples))) (num_of_Z 1000)).

Definition benchmark_model (model : string) (n_samples : nat) : M R :=
  do avg_time <- bench_loop (run_artifact model) n_samples num_zero;
  bench_finish n_samples avg_time.

Definition benchmark_onnx_model (model : string) (n_samples : nat) : M R :=
  do avg_time <- bench_loop (fun tensor => run_artifact model tensor) n_samples num_zero;
  bench_finish n_samples avg_time.

Definition size_mb (path : string) : R := num_div (file_size path) (num_of_Z 1000000).

Definition report (path : string) : M unit :=
  do avg_time <- benchmark_model path 100;
  print (LBench path avg_time 2 (size_mb path) 2).

Definition report_onnx (path : string) : M unit :=
  do avg_time <- benchmark_onnx_model path 100;
  print (LBench path avg_time 2 (size_mb path) 2).

(** *** Dataset and data loader *)

Record ToyDataset := mkToyDataset { ds_len : nat }.

(** [ToyDataset.__init__]: [self.len = 10]. *)
Definition ToyDataset_init : ToyDataset := mkToyDataset 10.

Definition ToyDataset_len (ds : ToyDataset) : nat := ds_len ds.

(** [ToyDataset.__getitem__(item)]: [torch.rand((3, 224, 224))]. *)
Definition ToyDataset_getitem (ds : ToyDataset) (item : Z) : M Tensor :=
  rand [3; 224; 224].

(** [for sample in DataLoader(dataset)]: sequential indices, batch size 1. *)
Fixpoint dl_foreach (ds : ToyDataset) (idxs : list nat) (body : Batch -> M unit) : M unit :=
  match idxs with
  | [] => mret tt
  | i :: idxs' =>
      do x <- ToyDataset_getitem ds (Z.of_nat i);
      do body [x];
      dl_foreach ds idxs' body
  end.

Fixpoint dl_collect (ds : ToyDataset) (idxs : list nat) : M (list Batch) :=
  match idxs with
  | [] => mret []
  | i :: idxs' =>
      do x <- ToyDataset_getitem ds (Z.of_nat i);
      do rest <- dl_collect ds idxs';
      mret ([x] :: rest)
  end.

Definition dl_indices (ds : ToyDataset) : list nat := seq 0 (ToyDataset_len ds).

(** [training_loop]: [pass]. *)
Definition training_loop : M unit := mret tt.

(** *** Deployment orchestrators *)

Definition deploy_float (model : nat) (name : string) : M unit :=
  let scripted_path := "./" +:+ name +:+ "_float_scripted.pt" in
  let traced_path := "./" +:+ name +:+ "_float_traced.pt" in
  let vulkan_path := "./" +:+ name +:+ "_float_vulkan_traced.pt" in
  do _ <- model_eval model;
  do script_and_serialize model scripted_path None;
  do example <- rand [1; 3; 224; 224];
  do trace_and_serialize model example traced_path None;
  do script_and_serialize model vulkan_path (Some "VULKAN");
  do report scripted_path;
  do report traced_path;
  report vulkan_path.

(** The head shared by [deploy_quantized] and [deploy_nnapi]: copy, select
    the engine, set the qconfig, eval, optionally fuse, prepare, calibrate
    and convert.  Returns the converted model and the path stem. *)
Definition quantize_pipeline (dataloader : ToyDataset) (model : nat) (fuse : bool)
    (stem : string) (backend : string) : M (nat * string) :=
  do model <- deepcopy model;
  do set_engine backend;
  do m <- get_model model;
  do put_model model (set_qconfig backend m);
  let path := stem in
  do model <- model_eval model;
  do path <- (if fuse then do model_fuse model; mret (path +:+ "_fused") else mret path);
  do model_prepared <- prepare model;
  do dl_foreach dataloader (dl_indices dataloader) (model_call model_prepared);
  do model_quantized <- convert model_prepared;
  mret (model_quantized, path).

Definition deploy_quantized (dataloader : ToyDataset) (model : nat) (fuse : bool)
    (name : string) (backend : string) : M unit :=
  do '(model_quantized, path) <- quantize_pipeline dataloader model fuse
                                    ("./" +:+ name +:+ "_quant") backend;
  let scripted_path := path +:+ "_scripted.pt" in
  let traced_path := path +:+ "_traced.pt" in
  do script_and_serialize model_quantized scripted_path (Some "CPU");
  do example <- rand [1; 3; 224; 224];
  do trace_and_serialize model_quantized example traced_path (Some "CPU");
  do report scripted_path;
  report traced_path.

Definition deploy_nnapi (dataloader : ToyDataset) (model : nat) (fuse : bool)
    (name : string) (backend : string) : M unit :=
  do '(model_quantized, path) <- quantize_pipeline dataloader model fuse
                                    ("./" +:+ name +:+ "_nnapi") backend;
  do input_float <- rand [1; 3; 224; 224];
  do mq <- get_model model_quantized;
  (* quantizer/dequantizer are kept; the model's own become Identity *)
  do put_model model_quantized (strip_stubs mq);
  (* quantizer(input_float), then channels_last: same shape and values *)
  let input_tensor := mkTensor (t_dims input_float) (t_id input_float) in
  (* torch.jit.trace runs the model once; convert_model_to_nnapi and the
     scripted float-interface wrapper do not touch the heap *)
  do model_call model_quantized [input_tensor];
  let traced_path := path +:+ "_traced.pt" in
  let traced_float_path := path +:+ "_float_interface_traced.pt" in
  do write_file traced_path;
  write_file traced_float_path.

(** [onnx.export]: traces the model on [example] and writes the graph. *)
Definition onnx_export (model : nat) (example : Tensor) (f : string) : M unit :=
  do model_call model [example]; write_file f.

Fixpoint run_records (session : string) (recs : list InputRecord) : M unit :=
  match recs with
  | [] => mret tt
  | r :: rs =>
      do (match r with
          | (_, t) :: _ => run_artifact session t
          | [] => mret tt
          end);
      run_records session rs
  end.

(** [quantize_static]: pulls records from the reader until [None], runs
    each through the float graph, writes the quantized graph. *)
Definition quantize_static (model_input model_output : string)
    (reader : ONNXQuantizationDataReader) : M unit :=
  do run_records model_input (drain (S (length (r_iter reader))) reader);
  write_file model_output.

Definition deploy_onnx_quantized (dataloader : ToyDataset) (model : nat) (fuse : bool)
    (name : string) : M unit :=
  do model <- deepcopy model;
  let path := "./" +:+ name in
  do model <- model_eval model;
  do path <- (if fuse then do model_fuse model; mret (path +:+ "_fused") else mret path);
  let float_path := path +:+ "_float.onnx" in
  let quantized_path := path +:+ "_quant.onnx" in
  do example_input <- rand [1; 3; 224; 224];
  do onnx_export model example_input float_path;
  do batches <- dl_collect dataloader (dl_indices dataloader);
  let onnx_q_loader := ONNXQuantizationDataReader_init batches "input_image" in
  do quantize_static float_path quantized_path onnx_q_loader;
  do report_onnx float_path;
  report_onnx quantized_path.

(** *** main *)

(** [ToyClassifier(optimized=...)]: a fresh object with random weights,
    in training mode. *)
Definition ToyClassifier_new (optimized : bool) : M nat :=
  do seed <- rand [];
  alloc {| m_optimized := optimized; m_params := init_params optimized (t_id seed);
           m_training := true; m_fused := false; m_qconfig := None; m_stubs := true;
           m_prepared := false; m_observed := []; m_quantized := false |}.

Fixpoint run_steps (steps : list (M unit)) : M unit :=
  match steps with
  | [] => mret tt
  | s :: ss => do s; run_steps ss
  end.

(** The calls of the loop body of [main] after the parameter count line. *)
Definition variant_steps (dataloader : ToyDataset) (model : nat) (name : string)
    : list (M unit) :=
  [training_loop;
   deploy_float model name;
   deploy_onnx_quantized dataloader model false name;
   deploy_onnx_quantized dataloader model true name;
   deploy_quantized dataloader model false name "fbgemm";
   deploy_quantized dataloader model true name "fbgemm";
   deploy_nnapi dataloader model true name "qnnpack"].

Definition main_variant (optimized : bool) (name : string) : M unit :=
  do model <- ToyClassifier_new optimized;
  let n := n_params (ToyClassifier_init optimized) in
  do print (LParams name (num_div (num_of_Z n) (num_of_Z 1000000)) 2);
  let dataloader := ToyDataset_init in
  run_steps (variant_steps dataloader model name).

Definition main : M unit :=
  do main_variant false "classifier";
  main_variant true "optimized_classifier".

(** An orchestrator call, for reasoning about call sequences. *)
Inductive Call :=
| CFloat (model : nat) (name : string)
| COnnx (dl : ToyDataset) (model : nat) (fuse : bool) (name : string)
| CQuant (dl : ToyDataset) (model : nat) (fuse : bool) (name backend : string)
| CNnapi (dl : ToyDataset) (model : nat) (fuse : bool) (name backend : string).

Definition run_call (c : Call) : M unit :=
  match c with
  | CFloat l n => deploy_float l n
  | COnnx d l f n => deploy_onnx_quantized d l f n
  | CQuant d l f n b => deploy_quantized d l f n b
  | CNnapi d l f n b => deploy_nnapi d l f n b
  end.

Definition run_calls (cs : list Call) : M unit := run_steps (map run_call cs).

End Program.

Notation "'do' x <- c ; k" := (mbind c (fun x => k))
  (at level 60, c at next level, right associativity).
Notation "'do' ' pat <- c ; k" :=
  (mbind c (fun x => match x with pat => k end))
  (at level 60, pat pattern, c at next level, right associativity).
Notation "'do' c ; k" := (do _ <- c ; k)
  (at level 60, right associativity).


(** A concrete runtime for evaluation: rationals for floats, a clock whose
    [t]-th reading is [t * t] (so successive intervals differ), toy weights
    and passes. *)
Definition clockQ (t : nat) : Q := inject_Z (Z.of_nat t * Z.of_nat t).

#[local] Instance RuntimeQ : Runtime Q := {
  num_zero := 0%Q; num_add := Qplus; num_sub := Qminus; num_mul := Qmult;
  num_div := Qdiv; num_of_Z := inject_Z;
  clock := clockQ;
  file_size := fun p => inject_Z (Z.of_nat (String.length p) * 1000);
  init_params := fun opt seed => [Z.of_nat seed; if opt then 1 else 0; 7];
  fold_bn := map (fun p => 2 * p);
  quantize_params := fun obs ps => map (fun p => p + Z.of_nat (length obs)) ps;
  supported_engines := ["none"; "fbgemm"; "qnnpack"];
}.

Definition world0 : World (R := Q) :=
  mkWorld ∅ 0 "fbgemm" [] [] 0 0 [].

(* ------------------------------------------------------------------ *)
(** ** Reference behaviour of the benchmark helpers *)

Section BenchSpec.
Context {R : Type} `{Runtime R}.

(** The events of [k] timed passes on [target], inputs drawn as draws
    [d0], [d0 + 1], ...: draw, clock, run, clock. *)
Definition bench_trace (target : string) (d0 k : nat) : list Event :=
  flat_map (fun i => [EvRand i; EvTime; EvForward target i; EvTime]) (seq d0 k).

(** The per-pass wall-clock times of [k] passes when the clock has been
    read [t0] times: pass [i] reads it at [t0 + 2 i] and [t0 + 2 i + 1]. *)
Fixpoint elapsed_list (t0 k : nat) : list R :=
  match k with
  | O => []
  | S k' => num_sub (clock (S t0)) (clock t0) :: elapsed_list (S (S t0)) k'
  end.



(** The world after [n] timed passes. *)
Definition after_bench (target : string) (n : nat) (w : World (R := R)) : World (R := R) :=
  mkWorld (w_heap w) (w_next w) (w_engine w) (w_files w) (w_out w)
    (w_draws w + n) (w_ticks w + 2 * n) (w_trace w ++ bench_trace target (w_draws w) n).

(** What a console line reports: the artifact and the two precisions. *)
Definition bench_meta (ln : Line (R := R)) : option (string * nat * nat) :=
  match ln with LBench p _ a _ b => Some (p, a, b) | LParams _ _ _ => None end.

Definition params_meta (ln : Line (R := R)) : option (string * nat) :=
  match ln with LParams n _ p => Some (n, p) | LBench _ _ _ _ _ => None end.

End BenchSpec.

(** ** Artifact paths, with the optional [_fused] segment *)

Definition fused_seg (fuse : bool) : string := if fuse then "_fused" else "".

Definition float_paths (name : string) : list string :=
  ["./" +:+ name +:+ "_float_scripted.pt"; "./" +:+ name +:+ "_float_traced.pt";
   "./" +:+ name +:+ "_float_vulkan_traced.pt"].

Definition quant_paths (name : string) (fuse : bool) : list string :=
  ["./" +:+ name +:+ "_quant" +:+ fused_seg fuse +:+ "_scripted.pt";
   "./" +:+ name +:+ "_quant" +:+ fused_seg fuse +:+ "_traced.pt"].

Definition nnapi_paths (name : string) (fuse : bool) : list string :=
  ["./" +:+ name +:+ "_nnapi" +:+ fused_seg fuse +:+ "_traced.pt";
   "./" +:+ name +:+ "_nnapi" +:+ fused_seg fuse +:+ "_float_interface_traced.pt"].

Definition onnx_paths (name : string) (fuse : bool) : list string :=
  ["./" +:+ name +:+ fused_seg fuse +:+ "_float.onnx";
   "./" +:+ name +:+ fused_seg fuse +:+ "_quant.onnx"].

(** The patterns as the spec lists them, [_fused] right after the name. *)
Definition spec_quant_paths (name : string) (fuse : bool) : list string :=
  ["./" +:+ name +:+ fused_seg fuse +:+ "_quant_scripted.pt";
   "./" +:+ name +:+ fused_seg fuse +:+ "_quant_traced.pt"].

Definition spec_nnapi_paths (name : string) (fuse : bool) : list string :=
  ["./" +:+ name +:+ fused_seg fuse +:+ "_nnapi_traced.pt";
   "./" +:+ name +:+ fused_seg fuse +:+ "_nnapi_float_interface_traced.pt"].

(** ** Per-call summaries *)

(** One report per artifact: its path, latency and size to 2 decimals. *)
Definition bench_lines (paths : list string) : list (option (string * nat * nat)) :=
  map (fun p => Some (p, 2%nat, 2%nat)) paths.

Definition call_paths (c : Call) : list string :=
  match c with
  | CFloat _ n => float_paths n
  | COnnx _ _ f n => onnx_paths n f
  | CQuant _ _ f n _ => quant_paths n f
  | CNnapi _ _ f n _ => nnapi_paths n f
  end.

(** The reports a call prints: none for the NNAPI path. *)
Definition call_reports (c : Call) : list (option (string * nat * nat)) :=
  match c with
  | CNnapi _ _ _ _ _ => []
  | _ => bench_lines (call_paths c)
  end.

(** The engine selector after a call, given the one before. *)
Definition call_engine (c : Call) (e : string) : string :=
  match c with
  | CQuant _ _ _ _ b | CNnapi _ _ _ _ b => b
  | _ => e
  end.

Definition call_events (c : Call) : list Event :=
  match c with
  | CQuant _ _ _ _ b | CNnapi _ _ _ _ b => [EvEngine b]
  | _ => []
  end.

(** The selector after a sequence of calls: the backend of the last
    [deploy_quantized] / [deploy_nnapi] call, else the initial value. *)
Definition last_engine (cs : list Call) (e : string) : string :=
  fold_left (fun e c => call_engine c e) cs e.

(** Whether the call deep-copies the model it is given. *)
Definition copies (c : Call) : bool :=
  match c with CFloat _ _ => false | _ => true end.

Section MainSpec.
Context {R : Type} `{Runtime R}.

Definition param_reports (L : list (Line (R := R))) : list (string * nat) :=
  flat_map (fun ln => match params_meta ln with Some p => [p] | None => [] end) L.

(** The loop body of [main] stopped after its first [k] calls. *)
Definition main_variant_upto (optimized : bool) (name : string) (k : nat) : M unit :=
  do model <- ToyClassifier_new optimized;
  let n := n_params (ToyClassifier_init optimized) in
  do print (LParams name (num_div (num_of_Z n) (num_of_Z 1000000)) 2);
  let dataloader := ToyDataset_init in
  run_steps (firstn k (variant_steps dataloader model name)).

(** Heap addresses in use are below [w_next]. *)
Definition wf_world (w : World (R := R)) : Prop :=
  forall k, (w_next w <= k)%nat -> w_heap w !! k = None.

End MainSpec.

(** The state of [main] right after constructing the first classifier. *)
Definition main_world1 : World (R := Q) :=
  match ToyClassifier_new false world0 with Some (_, w) => w | None => world0 end.

(** ** Partial correctness and the effect of a call *)

Section CallSpec.
Context {R : Type} `{Runtime R}.

(** Partial correctness: if [c] succeeds from [w], its result satisfies [Q]. *)
Definition wp {A} (c : M A) (Q : A -> World (R := R) -> Prop) (w : World (R := R)) : Prop :=
  match c w with Some (x, w') => Q x w' | None => True end.

(** Trace segments that do not touch the engine selector. *)
Definition no_engine (tr : list Event) : Prop :=
  Forall (fun e => forall b, e <> EvEngine b) tr.

(** What a finished call did to the world.  [copies] calls leave every
    pre-existing object untouched; all calls keep the parameters of every
    pre-existing object. *)
Definition call_post (c : Call) (w w' : World (R := R)) : Prop :=
  (w_next w <= w_next w')%nat /\
  (forall k, (k < w_next w)%nat ->
     fmap m_params (w_heap w' !! k) = fmap m_params (w_heap w !! k)) /\
  (copies c = true -> forall k, (k < w_next w)%nat -> w_heap w' !! k = w_heap w !! k) /\
  w_engine w' = call_engine c (w_engine w) /\
  (exists tr, w_trace w' = w_trace w ++ call_events c ++ tr /\ no_engine tr) /\
  w_files w' = w_files w ++ call_paths c /\
  (exists L, w_out w' = w_out w ++ L /\ map bench_meta L = call_reports c).

(** The trace of a call sequence: each call's segment opens with its own
    engine events and contains no other. *)
Definition calls_trace (cs : list Call) (trs : list (list Event)) : list Event :=
  concat (zip_with (fun c tr => call_events c ++ tr) cs trs).

Definition calls_post (cs : list Call) (w w' : World (R := R)) : Prop :=
  (w_next w <= w_next w')%nat /\
  (forall k, (k < w_next w)%nat ->
     fmap m_params (w_heap w' !! k) = fmap m_params (w_heap w !! k)) /\
  (forallb copies cs = true ->
     forall k, (k < w_next w)%nat -> w_heap w' !! k = w_heap w !! k) /\
  w_engine w' = last_engine cs (w_engine w) /\
  (exists trs, length trs = length cs /\ Forall no_engine trs /\
               w_trace w' = w_trace w ++ calls_trace cs trs) /\
  w_files w' = w_files w ++ flat_map call_paths cs /\
  (exists L, w_out w' = w_out w ++ L /\ map bench_meta L = flat_map call_reports cs).

End CallSpec.

(** The orchestrator calls of the loop body of [main], in order. *)
Definition variant_calls (dataloader : ToyDataset) (model : nat) (name : string)
    : list Call :=
  [CFloat model name;
   COnnx dataloader model false name;
   COnnx dataloader model true name;
   CQuant dataloader model false name "fbgemm";
   CQuant dataloader model true name "fbgemm";
   CNnapi dataloader model true name "qnnpack"].

(** What a console line is about, without its numbers. *)
Inductive LineMeta :=
| MBench (path : string) (latency_prec size_prec : nat)
| MParams (name : string) (prec : nat).

Definition line_meta {R : Type} (ln : Line (R := R)) : LineMeta :=
  match ln with
  | LBench p _ a _ b => MBench p a b
  | LParams n _ p => MParams n p
  end.

(** The artifacts [main] reports on for one variant: all but the NNAPI ones. *)
Definition reported_paths (name : string) : list string :=
  float_paths name ++ onnx_paths name false ++ onnx_paths name true ++
  quant_paths name false ++ quant_paths name true.

Definition variant_console (name : string) : list LineMeta :=
  MParams name 2 :: map (fun p => MBench p 2 2) (reported_paths name).

(** The output channels after a chain of (in, out, stride) blocks entered
    with [c] channels, when each block's input matches and its sizes are
    positive. *)
Fixpoint chain_out (c : Z) (bp : list (Z * Z * Z)) : option Z :=
  match bp with
  | [] => Some c
  | (i, o, s) :: r => if (i =? c) && (0 <? i) && (0 <? s) then chain_out o r else None
  end.

(** The spatial size after a chain of 3x3, padding-1 blocks. *)
Fixpoint chain_size (h : Z) (bp : list (Z * Z * Z)) : Z :=
  match bp with
  | [] => h
  | (_, _, s) :: r => chain_size ((h - 1) / s + 1) r
  end.

(** The thirteen artifacts one variant's deployment calls write. *)
Definition variant_paths (name : string) : list string :=
  float_paths name ++ onnx_paths name false ++ onnx_paths name true ++
  quant_paths name false ++ quant_paths name true ++ nnapi_paths name true.

(* ================================================================== *)
(** * Properties *)

(** ** Channel rounding *)

Lemma make_div8_spec (w : Z) :
  1 <= w ->
  make_div8 w mod 8 = 0 /\ 8 <= make_div8 w /\ 9 * w <= 10 * make_div8 w /\
  make_div8 w < w + 8.
Proof.
  intros Hw. unfold make_div8, _make_divisible.
  replace (2 * w + 8) with ((w + 4) * 2) by ring.
  rewrite Z.quot_mul by lia.
  pose proof (Z.div_mod (w + 4) 8 ltac:(lia)) as Hdm.
  pose proof (Z.mod_pos_bound (w + 4) 8 ltac:(lia)) as Hb.
  set (q := (w + 4) / 8) in *.
  assert (Hk : exists k, Z.max 8 (q * 8) = k * 8 /\ 1 <= k /\ w - 4 < k * 8 /\
                         (q * 8 < 8 -> k = 1) /\ (8 <= q * 8 -> k = q)).
  { destruct (Z.max_spec 8 (q * 8)) as [[Hlt Hm] | [Hle Hm]]; rewrite Hm.
    - exists q; lia.
    - exists 1; lia. }
  destruct Hk as (k & Hm & Hk1 & Hk2 & Hk3 & Hk4). rewrite Hm.
  destruct (Z.ltb_spec (10 * (k * 8)) (9 * w)) as [Hc | Hc].
  - replace (k * 8 + 8) with ((k + 1) * 8) by ring.
    rewrite Z.mod_mul by lia. lia.
  - rewrite Z.mod_mul by lia. lia.
Qed.

Lemma make_div8_eq (v : Z) (Hv : 0 <= v) :
  make_div8 v =
  let n := Z.max 8 ((v + 4) / 8 * 8) in if 10 * n <? 9 * v then n + 8 else n.
Proof.
  unfold make_div8, _make_divisible.
  replace (2 * v + 8) with ((v + 4) * 2) by ring.
  rewrite Z.quot_mul by lia. reflexivity.
Qed.

(** Claim C2 (as stated, refuted): the factored variant's width for 74 is
    72, a multiple of 8 below 74, so widths are not always rounded up. *)
Lemma C2_counterexample :
  ~ (forall w, In w schedule_widths -> make_div8 w mod 8 = 0 /\ w <= make_div8 w).
Proof.
  intros Hc. destruct (Hc 74) as [_ Hle]; [simpl; tauto |].
  vm_compute in Hle. apply Hle. reflexivity.
Qed.

(** Claim C2 (amended): for every width [w >= 1], [_make_divisible(w, 8)]
    is a multiple of 8, at least 8, at least 90% of [w] and below [w + 8];
    the factored variant's block widths are 24, 40, 72, 144, 288, 576, 1152,
    1152 while the canonical variant keeps the raw schedule.  The value is
    [r = (w + 4) / 8 * 8], a multiple of 8 within 4 of [w] (halves rounded
    up), raised to 8 if smaller, and raised by a further 8 when below 90% of
    [w]. *)
Theorem C2_rounding_amended (w : Z) (Hw : 1 <= w) :
  (make_div8 w mod 8 = 0 /\ 8 <= make_div8 w /\ 9 * w <= 10 * make_div8 w /\
   make_div8 w < w + 8) /\
  map block_out_channels (tc_blocks (ToyClassifier_init true))
    = map Some [24; 40; 72; 144; 288; 576; 1152; 1152] /\
  map block_out_channels (tc_blocks (ToyClassifier_init false))
    = map Some schedule_widths /\
  (let r := (w + 4) / 8 * 8 in
   w - 4 < r <= w + 4 /\
   make_div8 w = (let n := Z.max 8 r in if 10 * n <? 9 * w then n + 8 else n)).
Proof.
  split; [apply make_div8_spec; exact Hw |].
  split; [reflexivity |]. split; [reflexivity |].
  cbv zeta. split.
  - pose proof (Z.div_mod (w + 4) 8 ltac:(lia)).
    pose proof (Z.mod_pos_bound (w + 4) 8 ltac:(lia)). lia.
  - apply make_div8_eq. lia.
Qed.

Lemma C2_witness : make_div8 18 = 24 /\ 9 * 18 <= 10 * make_div8 18.
Proof.
  split; [reflexivity |].
  apply (proj1 (proj2 (proj2 (proj1 (C2_rounding_amended 18 ltac:(lia)))))).
Defined.

(** ** Output shape of the classifier *)

Lemma concat_map_cons {A B} (f : A -> list B) (x : A) (l : list A) :
  concat (map f (x :: l)) = f x ++ concat (map f l).
Proof. reflexivity. Qed.

Lemma layers_shape_app (t : bool) (l1 l2 : list Layer) (s : list Z) :
  layers_shape t (l1 ++ l2) s =
  match layers_shape t l1 s with Some s' => layers_shape t l2 s' | None => None end.
Proof.
  revert s. induction l1 as [|l l1 IH]; intros s; simpl; [reflexivity |].
  destruct (layer_shape t l s); [apply IH | reflexivity].
Qed.

Lemma conv3_out (h s : Z) (Hs : 0 < s) :
  conv_out h 3 s 1 = if 1 <=? h then Some ((h - 1) / s + 1) else None.
Proof.
  unfold conv_out. destruct (Z.leb_spec s 0); [lia |]. simpl.
  destruct (Z.ltb_spec (h + 2 * 1) 3), (Z.leb_spec 1 h); try lia; [reflexivity |].
  f_equal. f_equal. f_equal. lia.
Qed.

Lemma conv1_out (h : Z) (Hh : 1 <= h) : conv_out h 1 1 0 = Some h.
Proof.
  unfold conv_out. destruct (Z.ltb_spec (h + 2 * 0) 1); [lia |]. simpl.
  rewrite Z.div_1_r. f_equal. lia.
Qed.

Lemma stride_out_pos (h s : Z) : 0 < s -> 1 <= (h - 1) / s + 1 <-> 1 <= h.
Proof.
  intros Hs. split; intros Hh.
  - destruct (Z.leb_spec 1 h); [lia |].
    assert ((h - 1) / s < 0) by (apply Z.div_lt_upper_bound; lia). lia.
  - assert (0 <= (h - 1) / s) by (apply Z.div_pos; lia). lia.
Qed.

(** One value per channel: with positive spatial sizes, only the batch of
    one 1x1 map. *)
Lemma prod_one (n a b : Z) (Ha : 1 <= a) (Hb : 1 <= b) :
  (n * a * b =? 1) = (a =? 1) && (b =? 1) && (n =? 1).
Proof.
  destruct (Z.eqb_spec (n * a * b) 1) as [He | He];
  destruct (Z.eqb_spec a 1); destruct (Z.eqb_spec b 1); destruct (Z.eqb_spec n 1);
  subst; simpl; try reflexivity; try lia; exfalso.
  all: assert (1 <= n) by nia; nia.
Qed.

(** The result of one block on a (n, c, h, w) input. *)
Definition block_result (t : bool) (cin cout s n c h w : Z) : option (list Z) :=
  if (c =? cin) && (1 <=? h) && (1 <=? w) then
    if t && ((h - 1) / s + 1 =? 1) && ((w - 1) / s + 1 =? 1) && (n =? 1) then None
    else Some [n; cout; (h - 1) / s + 1; (w - 1) / s + 1]
  else None.

Lemma conv_blocks_shape (t : bool) (cin cout s n c h w : Z) (Hcin : 0 < cin) (Hs : 0 < s) :
  layers_shape t (ConvBNReLU cin cout s) [n; c; h; w] = block_result t cin cout s n c h w /\
  layers_shape t (OptimizedConvBNReLU cin cout s) [n; c; h; w] =
    block_result t cin cout s n c h w.
Proof.
  unfold ConvBNReLU, OptimizedConvBNReLU, block_result. cbn [layers_shape layer_shape].
  rewrite !Z.mod_1_r, Z.mod_same by lia.
  replace (cin >? 0) with true by (symmetry; apply Z.gtb_lt; lia).
  cbn [Z.gtb Z.compare Z.eqb andb Pos.compare Pos.compare_cont].
  rewrite !conv3_out by exact Hs.
  destruct (Z.eqb_spec c cin) as [-> | Hc]; [| split; reflexivity].
  destruct (Z.leb_spec 1 h) as [Hh | Hh]; [| split; reflexivity].
  destruct (Z.leb_spec 1 w) as [Hw | Hw]; [| split; reflexivity].
  cbn [andb]. rewrite Z.eqb_refl. cbn [andb].
  assert (Hh' : 1 <= (h - 1) / s + 1) by (apply stride_out_pos; lia).
  assert (Hw' : 1 <= (w - 1) / s + 1) by (apply stride_out_pos; lia).
  rewrite !conv1_out by assumption.
  cbn [layers_shape layer_shape]. rewrite !Z.eqb_refl. cbn [andb].
  rewrite prod_one by assumption. rewrite !andb_assoc.
  destruct (t && ((h - 1) / s + 1 =? 1) && ((w - 1) / s + 1 =? 1) && (n =? 1));
    split; rewrite ?Z.eqb_refl; reflexivity.
Qed.

Lemma chain_size_one (bp : list (Z * Z * Z)) : chain_size 1 bp = 1.
Proof.
  induction bp as [|[[i o] s] bp IH]; [reflexivity |]. simpl chain_size.
  replace ((1 - 1) / s + 1) with 1 by (rewrite Z.sub_diag; reflexivity). exact IH.
Qed.

Lemma chain_size_pos (bp : list (Z * Z * Z)) (c cf h : Z) :
  chain_out c bp = Some cf -> 1 <= h -> 1 <= chain_size h bp.
Proof.
  revert c h. induction bp as [|[[i o] s] bp IH]; intros c h Hch Hh; [exact Hh |].
  simpl in *. destruct ((i =? c) && (0 <? i) && (0 <? s)) eqn:E; [| discriminate].
  apply andb_prop in E as [_ Hs]. apply Z.ltb_lt in Hs.
  apply (IH o); [exact Hch | apply stride_out_pos; lia].
Qed.

Lemma blocks_chain (t : bool) (mk : Z -> Z -> Z -> list Layer)
    (Hmk : forall cin cout s n c h w, 0 < cin -> 0 < s ->
       layers_shape t (mk cin cout s) [n; c; h; w] = block_result t cin cout s n c h w)
    (b0 : Z * Z * Z) (bp : list (Z * Z * Z)) (c cf n h w : Z) :
  chain_out c (b0 :: bp) = Some cf -> 1 <= h -> 1 <= w ->
  layers_shape t (concat (map (fun '(i, o, s) => mk i o s) (b0 :: bp))) [n; c; h; w] =
  if t && (chain_size h (b0 :: bp) =? 1) && (chain_size w (b0 :: bp) =? 1) && (n =? 1)
  then None else Some [n; cf; chain_size h (b0 :: bp); chain_size w (b0 :: bp)].
Proof.
  revert b0 c h w. induction bp as [|b1 bp IH]; intros [[i o] s] c h w Hch Hh Hw;
    cbn [chain_out] in Hch;
    (destruct (Z.eqb_spec i c) as [<- |]; [| discriminate]);
    (destruct (Z.ltb_spec 0 i); [| discriminate]);
    (destruct (Z.ltb_spec 0 s); [| discriminate]); cbn [andb] in Hch.
  - injection Hch as <-. cbn [map concat chain_size]. rewrite app_nil_r, Hmk by assumption.
    unfold block_result. rewrite Z.eqb_refl.
    destruct (Z.leb_spec 1 h); [| lia]. destruct (Z.leb_spec 1 w); [| lia]. reflexivity.
  - rewrite concat_map_cons, layers_shape_app, Hmk by assumption.
    unfold block_result. rewrite Z.eqb_refl.
    destruct (Z.leb_spec 1 h); [| lia]. destruct (Z.leb_spec 1 w); [| lia]. cbn [andb].
    change (chain_size h ((i, o, s) :: b1 :: bp)) with (chain_size ((h - 1) / s + 1) (b1 :: bp)).
    change (chain_size w ((i, o, s) :: b1 :: bp)) with (chain_size ((w - 1) / s + 1) (b1 :: bp)).
    destruct (t && ((h - 1) / s + 1 =? 1) && ((w - 1) / s + 1 =? 1) && (n =? 1)) eqn:E.
    + apply andb_prop in E as [E Hn]. apply andb_prop in E as [E Hw1].
      apply andb_prop in E as [Ht Hh1].
      apply Z.eqb_eq in Hh1, Hw1. rewrite Hh1, Hw1, !chain_size_one, Ht, Hn. reflexivity.
    + apply IH; [exact Hch | apply stride_out_pos; lia | apply stride_out_pos; lia].
Qed.

Lemma ToyClassifier_blocks (optimized : bool) :
  tc_blocks (ToyClassifier_init optimized) =
  if optimized then
    map (fun '(i, o, s) => OptimizedConvBNReLU i o s)
      [(3, 24, 1); (24, 40, 2); (40, 72, 1); (72, 144, 2);
       (144, 288, 1); (288, 576, 2); (576, 1152, 1); (1152, 1152, 2)]
  else map (fun '(i, o, s) => ConvBNReLU i o s) block_params.
Proof. destruct optimized; vm_compute; reflexivity. Qed.

(** The spatial size after the eight blocks (strides 1, 2, 1, 2, ...). *)
Lemma chain_size_strides (h : Z) (Hh : 1 <= h) :
  chain_size h block_params = (h - 1) / 16 + 1 /\
  chain_size h [(3, 24, 1); (24, 40, 2); (40, 72, 1); (72, 144, 2);
                (144, 288, 1); (288, 576, 2); (576, 1152, 1); (1152, 1152, 2)]
    = (h - 1) / 16 + 1.
Proof.
  assert (E : forall a : Z, (a - 1) / 1 + 1 = a) by (intros a; rewrite Z.div_1_r; lia).
  assert (E2 : forall a k : Z, 0 < k -> ((a - 1) / k + 1 - 1) / 2 = (a - 1) / (k * 2)).
  { intros a k Hk. rewrite Z.add_simpl_r. apply Z.div_div; lia. }
  unfold block_params. cbn [chain_size].
  rewrite ?E, ?Z.add_simpl_r, ?E, ?Z.div_div by lia.
  split; reflexivity.
Qed.

Lemma size16_one (h : Z) (Hh : 1 <= h) : ((h - 1) / 16 + 1 =? 1) = (h <=? 16).
Proof.
  destruct (Z.leb_spec h 16).
  - rewrite Z.div_small by lia. reflexivity.
  - apply Z.eqb_neq. assert (1 <= (h - 1) / 16) by (apply Z.div_le_lower_bound; lia). lia.
Qed.

(** The shape function of [ToyClassifier.forward] in either mode. *)
Lemma forward_shape_mode (t optimized : bool) (s : list Z) :
  forward_shape (ToyClassifier_train t (ToyClassifier_init optimized)) s =
  match s with
  | [b; c; h; w] =>
      if (c =? 3) && (1 <=? h) && (1 <=? w) then
        if t && (h <=? 16) && (w <=? 16) && (b =? 1) then None else Some [b; 1000; 1; 1]
      else None
  | _ => None
  end.
Proof.
  unfold forward_shape. cbn [ToyClassifier_train tc_quant tc_blocks tc_pooling tc_classifier
                             tc_dequant tc_training].
  assert (Hq : layers_shape t [tc_quant (ToyClassifier_init optimized)] s = Some s)
    by (destruct optimized; reflexivity).
  rewrite Hq, ToyClassifier_blocks.
  destruct s as [|b [|c [|h [|w [|x s]]]]];
    [destruct optimized; reflexivity .. | | destruct optimized; reflexivity].
  destruct ((c =? 3) && (1 <=? h) && (1 <=? w)) eqn:E.
  - apply andb_prop in E as [E Hw]; apply andb_prop in E as [Hc Hh].
    apply Z.eqb_eq in Hc; apply Z.leb_le in Hh; apply Z.leb_le in Hw; subst c.
    destruct (chain_size_strides h Hh) as [Hh1 Hh2].
    destruct (chain_size_strides w Hw) as [Hw1 Hw2].
    assert (Hp : 0 < (h - 1) / 16 + 1 /\ 0 < (w - 1) / 16 + 1).
    { pose proof (Z.div_pos (h - 1) 16 ltac:(lia) ltac:(lia)).
      pose proof (Z.div_pos (w - 1) 16 ltac:(lia) ltac:(lia)). lia. }
    destruct optimized.
    + rewrite (blocks_chain t OptimizedConvBNReLU
        (fun cin cout s n c h w Hc Hs => proj2 (conv_blocks_shape t cin cout s n c h w Hc Hs))
        (3, 24, 1) _ 3 1152) by (reflexivity || lia).
      rewrite Hh2, Hw2, !size16_one by assumption.
      destruct (t && (h <=? 16) && (w <=? 16) && (b =? 1)); [reflexivity |].
      cbn [layers_shape layer_shape ToyClassifier_init tc_pooling tc_classifier tc_dequant].
      destruct (Z.gtb_spec ((h - 1) / 16 + 1) 0); [| lia].
      destruct (Z.gtb_spec ((w - 1) / 16 + 1) 0); [| lia]. reflexivity.
    + rewrite (blocks_chain t ConvBNReLU
        (fun cin cout s n c h w Hc Hs => proj1 (conv_blocks_shape t cin cout s n c h w Hc Hs))
        (3, 18, 1) (tail block_params) 3 1154) by (reflexivity || lia).
      change ((3, 18, 1) :: tail block_params) with block_params.
      rewrite Hh1, Hw1, !size16_one by assumption.
      destruct (t && (h <=? 16) && (w <=? 16) && (b =? 1)); [reflexivity |].
      cbn [layers_shape layer_shape ToyClassifier_init tc_pooling tc_classifier tc_dequant].
      destruct (Z.gtb_spec ((h - 1) / 16 + 1) 0); [| lia].
      destruct (Z.gtb_spec ((w - 1) / 16 + 1) 0); [| lia]. reflexivity.
  - destruct optimized;
      [| change block_params with ((3, 18, 1) :: tail block_params)];
      rewrite concat_map_cons, layers_shape_app;
      [rewrite (proj2 (conv_blocks_shape t 3 24 1 b c h w ltac:(lia) ltac:(lia)))
      |rewrite (proj1 (conv_blocks_shape t 3 18 1 b c h w ltac:(lia) ltac:(lia)))];
      unfold block_result; rewrite E; reflexivity.
Qed.

(** A freshly constructed classifier is in training mode. *)
Lemma ToyClassifier_init_training (optimized : bool) :
  ToyClassifier_train true (ToyClassifier_init optimized) = ToyClassifier_init optimized.
Proof. destruct optimized; reflexivity. Qed.


(** Claim C5 (as stated, refuted): the output of the forward pass on a
    (1, 3, 224, 224) input is not of shape (1, 1000). *)
Lemma C5_counterexample :
  forward_shape (ToyClassifier_init false) [1; 3; 224; 224] <> Some [1; 1000].
Proof. vm_compute. congruence. Qed.

(** Claim C5 (amended): for both block variants and every batch size [b],
    the forward pass on a (b, 3, 224, 224) input yields a (b, 1000, 1, 1)
    tensor: the head is a 1x1 convolution after 1x1 pooling, not flattened. *)
Theorem C5_forward_shape_amended (optimized : bool) (b : Z) :
  forward_shape (ToyClassifier_init optimized) [b; 3; 224; 224] = Some [b; 1000; 1; 1].
Proof.
  rewrite <- ToyClassifier_init_training, forward_shape_mode. reflexivity.
Qed.

(** ** The ONNX calibration data reader *)

Lemma fold_left_snoc_map {A B} (g : A -> B) (l : list A) (acc : list B) :
  fold_left (fun acc' x => acc' ++ [g x]) l acc = acc ++ map g l.
Proof.
  revert acc; induction l as [|x l IH]; intros acc; simpl.
  - by rewrite app_nil_r.
  - rewrite IH, <- app_assoc. reflexivity.
Qed.

Lemma reader_data (quant_loader : list Batch) (input_name : string) :
  r_data (ONNXQuantizationDataReader_init quant_loader input_name)
  = map unsqueeze0 (concat quant_loader).
Proof.
  unfold ONNXQuantizationDataReader_init; simpl.
  assert (Hgen : forall acc,
    fold_left (fun acc (inputs : Batch) =>
                 fold_left (fun acc' input_frame => acc' ++ [unsqueeze0 input_frame])
                           inputs acc) quant_loader acc
    = acc ++ map unsqueeze0 (concat quant_loader)).
  { induction quant_loader as [|b bs IH]; intros acc; simpl.
    - by rewrite app_nil_r.
    - rewrite fold_left_snoc_map, IH, map_app, app_assoc. reflexivity. }
  apply Hgen.
Qed.

Lemma get_next_n_spec (data : list Tensor) (recs : list InputRecord) (extra : nat) :
  get_next_n (length recs + extra) (mkReader data recs) = map Some recs ++ repeat None extra.
Proof.
  induction recs as [|x xs IH]; simpl.
  - induction extra as [|e IHe]; simpl; [reflexivity | by rewrite IHe].
  - by rewrite IH.
Qed.

(** Claim C6: the reader built from a loader with [n] samples in total
    holds [n] records, one per frame in order, each [{input_name: d}] with
    [d] of batch dimension 1; [n + extra] calls of [get_next] return them in
    order and then [None] on every further call. *)
Theorem C6_reader_records (quant_loader : list Batch) (input_name : string) (extra : nat) :
  let r := ONNXQuantizationDataReader_init quant_loader input_name in
  let n := length (concat quant_loader) in
  length (r_data r) = n /\
  r_iter r = map (fun f => [(input_name, unsqueeze0 f)]) (concat quant_loader) /\
  Forall (fun rec => exists d, rec = [(input_name, d)] /\ hd_error (t_dims d) = Some 1)
         (r_iter r) /\
  get_next_n (n + extra) r = map Some (r_iter r) ++ repeat None extra.
Proof.
  cbv zeta.
  assert (Hiter : r_iter (ONNXQuantizationDataReader_init quant_loader input_name)
                  = map (fun f => [(input_name, unsqueeze0 f)]) (concat quant_loader)).
  { transitivity (map (fun d => [(input_name, d)])
                      (r_data (ONNXQuantizationDataReader_init quant_loader input_name))).
    - reflexivity.
    - rewrite reader_data, map_map. reflexivity. }
  split; [rewrite reader_data; apply length_map |].
  split; [exact Hiter |].
  split.
  - rewrite Hiter. apply Forall_forall. intros rec Hin.
    apply list_elem_of_In, in_map_iff in Hin as (f & <- & _).
    eexists; split; reflexivity.
  - replace (length (concat quant_loader))
      with (length (r_iter (ONNXQuantizationDataReader_init quant_loader input_name)))
      by (rewrite Hiter; apply length_map).
    destruct (ONNXQuantizationDataReader_init quant_loader input_name) as [d recs].
    apply get_next_n_spec.
Qed.

Section Effects.
Context {R : Type} `{Runtime R}.

(** ** Dataset indexing *)

(** Claim C10: [ToyDataset.__getitem__] succeeds at every integer index,
    with or without bounds, returns a (3, 224, 224) tensor whose value does
    not depend on the index, and a second call at the same index returns a
    fresh draw. *)
Theorem C10_getitem_any_index (ds : ToyDataset) (i j : Z) (w : World (R := R)) :
  ToyDataset_getitem ds i w = ToyDataset_getitem ds j w /\
  exists t w', ToyDataset_getitem ds i w = Some (t, w') /\ t_dims t = [3; 224; 224] /\
    exists t' w'', ToyDataset_getitem ds i w' = Some (t', w'') /\
      t_dims t' = [3; 224; 224] /\ t_id t' <> t_id t.
Proof.
  split; [reflexivity |].
  do 2 eexists; split; [reflexivity | split; [reflexivity |]].
  do 2 eexists; split; [reflexivity | split; [reflexivity |]].
  simpl. lia.
Qed.

(** ** Benchmark helpers *)

Lemma bench_loop_spec (target : string) (k : nat) (acc : R) (w : World (R := R)) :
  bench_loop (run_artifact target) k acc w
  = Some (fold_left num_add (elapsed_list (w_ticks w) k) acc, after_bench target k w).
Proof.
  revert acc w; induction k as [|k IH]; intros acc w.
  - destruct w; unfold after_bench, bench_trace; simpl.
    rewrite !Nat.add_0_r, app_nil_r. reflexivity.
  - simpl bench_loop. unfold mbind at 1, rand at 1. cbn [w_ticks w_draws w_trace].
    unfold mbind at 1, time at 1. unfold mbind at 1, run_artifact at 1.
    unfold mbind at 1, time at 1. cbn [w_ticks w_draws w_trace w_heap w_next w_engine
                                       w_files w_out t_id].
    rewrite IH. simpl. f_equal. f_equal.
    unfold after_bench, bench_trace; simpl. f_equal; try lia.
    rewrite <- !app_assoc. reflexivity.
Qed.


End Effects.


(** ** A weakest-precondition calculus for the state monad *)

Section WP.
Context {R : Type} `{Runtime R}.

Lemma wp_run {A} (c : M (R := R) A) Q w x w' : wp c Q w -> c w = Some (x, w') -> Q x w'.
Proof. unfold wp. intros Hwp Hc. rewrite Hc in Hwp. exact Hwp. Qed.

Lemma wp_bind {A B} (c : M (R := R) A) (k : A -> M B) Q w :
  wp c (fun x w1 => wp (k x) Q w1) w -> wp (mbind c k) Q w.
Proof. unfold wp, mbind. destruct (c w) as [[x w1]|]; auto. Qed.

Lemma wp_ret {A} (x : A) Q (w : World (R := R)) : Q x w -> wp (mret x) Q w.
Proof. exact id. Qed.

Lemma wp_fail {A} Q (w : World (R := R)) : wp (mfail (A := A)) Q w.
Proof. exact I. Qed.

Lemma no_engine_app tr1 tr2 : no_engine tr1 -> no_engine tr2 -> no_engine (tr1 ++ tr2).
Proof. apply Forall_app_2. Qed.

Lemma no_engine_bench target d0 k : no_engine (bench_trace target d0 k).
Proof.
  unfold bench_trace, no_engine. revert d0; induction k as [|k IH]; intros d0; simpl.
  - constructor.
  - repeat constructor; try (intros b; discriminate). apply IH.
Qed.

Lemma wp_benchmark target n Q w :
  (forall r d t tr, no_engine tr ->
     Q r (mkWorld (w_heap w) (w_next w) (w_engine w) (w_files w) (w_out w) d t
                  (w_trace w ++ tr))) ->
  wp (benchmark_model target n) Q w.
Proof.
  intros HQ. unfold benchmark_model. apply wp_bind.
  unfold wp at 1. rewrite bench_loop_spec.
  unfold bench_finish, wp. destruct (Nat.eqb n 0); [exact I |].
  apply HQ, no_engine_bench.
Qed.

Lemma wp_benchmark_onnx target n Q w :
  (forall r d t tr, no_engine tr ->
     Q r (mkWorld (w_heap w) (w_next w) (w_engine w) (w_files w) (w_out w) d t
                  (w_trace w ++ tr))) ->
  wp (benchmark_onnx_model target n) Q w.
Proof.
  intros HQ. unfold benchmark_onnx_model. apply wp_bind.
  unfold wp at 1. rewrite bench_loop_spec.
  unfold bench_finish, wp. destruct (Nat.eqb n 0); [exact I |].
  apply HQ, no_engine_bench.
Qed.

Lemma wp_report path Q w :
  (forall r d t tr, no_engine tr ->
     Q tt (mkWorld (w_heap w) (w_next w) (w_engine w) (w_files w)
                   (w_out w ++ [LBench path r 2 (size_mb path) 2]) d t (w_trace w ++ tr))) ->
  wp (report path) Q w.
Proof.
  intros HQ. unfold report. apply wp_bind, wp_benchmark.
  intros r d t tr Htr. apply HQ, Htr.
Qed.

Lemma wp_report_onnx path Q w :
  (forall r d t tr, no_engine tr ->
     Q tt (mkWorld (w_heap w) (w_next w) (w_engine w) (w_files w)
                   (w_out w ++ [LBench path r 2 (size_mb path) 2]) d t (w_trace w ++ tr))) ->
  wp (report_onnx path) Q w.
Proof.
  intros HQ. unfold report_onnx. apply wp_bind, wp_benchmark_onnx.
  intros r d t tr Htr. apply HQ, Htr.
Qed.

(** Calibration: the loop only changes the object it runs. *)
Lemma wp_dl_foreach_call ds idxs p Q (w : World (R := R)) :
  (forall h d tr, (forall k, k <> p -> h !! k = w_heap w !! k) ->
     (forall m, w_heap w !! p = Some m -> exists m', h !! p = Some m' /\ m_params m' = m_params m) ->
     no_engine tr ->
     Q tt (mkWorld h (w_next w) (w_engine w) (w_files w) (w_out w) d (w_ticks w)
                   (w_trace w ++ tr))) ->
  wp (dl_foreach ds idxs (model_call p)) Q w.
Proof.
  revert w; induction idxs as [|i idxs IH]; intros w HQ; simpl.
  - unfold wp; simpl. destruct w; simpl in *.
    rewrite <- (app_nil_r w_trace0). apply HQ; eauto. constructor.
  - apply wp_bind. unfold wp at 1, ToyDataset_getitem, rand. cbn [w_draws w_trace].
    apply wp_bind. unfold model_call. apply wp_bind.
    unfold wp at 1, get_model at 1. cbn [w_heap].
    destruct (w_heap w !! p) as [m|] eqn:Hp; [| exact I].
    cbn beta iota. destruct (m_prepared m).
    + unfold wp at 1, put_model. cbn [w_heap w_next w_engine w_files w_out w_draws
                                      w_ticks w_trace].
      apply IH. intros h d tr Hh Hhp Htr. cbn [w_heap w_next w_engine w_files w_out w_draws
                                      w_ticks w_trace] in *.
      rewrite <- app_assoc. apply HQ.
      * intros k Hk. rewrite Hh by exact Hk. apply lookup_insert_ne. congruence.
      * intros m0 Hm0. injection Hm0 as <-.
        destruct (Hhp _ (lookup_insert_eq _ _ _)) as (m' & Hm' & Hpm).
        exists m'. split; [exact Hm' | exact Hpm].
      * apply no_engine_app; [| exact Htr]. repeat constructor. intros b; discriminate.
    + apply wp_ret. apply IH. intros h d tr Hh Hhp Htr. cbn [w_heap w_next w_engine w_files
                                      w_out w_draws w_ticks w_trace] in *.
      rewrite <- app_assoc. apply HQ.
      * exact Hh.
      * intros m0 Hm0. apply Hhp. rewrite Hp. exact Hm0.
      * apply no_engine_app; [| exact Htr]. repeat constructor. intros b; discriminate.
Qed.

End WP.

Lemma string_app_assoc (s1 s2 s3 : string) : (s1 +:+ s2) +:+ s3 = s1 +:+ (s2 +:+ s3).
Proof. induction s1 as [|a s1 IH]; [reflexivity | exact (f_equal (String a) IH)]. Qed.

Lemma string_app_nil_r (s : string) : s +:+ "" = s.
Proof. induction s as [|a s IH]; [reflexivity | exact (f_equal (String a) IH)]. Qed.

Section WP2.
Context {R : Type} `{Runtime R}.

Lemma wp_dl_collect ds idxs Q (w : World (R := R)) :
  (forall bs d tr, no_engine tr ->
     Q bs (mkWorld (w_heap w) (w_next w) (w_engine w) (w_files w) (w_out w) d (w_ticks w)
                   (w_trace w ++ tr))) ->
  wp (dl_collect ds idxs) Q w.
Proof.
  revert Q w; induction idxs as [|i idxs IH]; intros Q w HQ; simpl.
  - unfold wp; simpl. destruct w; simpl in *.
    rewrite <- (app_nil_r w_trace0). apply HQ. constructor.
  - apply wp_bind. unfold wp at 1, ToyDataset_getitem, rand. cbn [w_draws w_trace].
    apply wp_bind. apply IH. intros bs d tr Htr. cbn [w_heap w_next w_engine w_files
                                      w_out w_draws w_ticks w_trace].
    apply wp_ret. rewrite <- app_assoc. apply HQ.
    apply no_engine_app; [| exact Htr]. repeat constructor. intros b; discriminate.
Qed.

Lemma wp_run_records session recs Q (w : World (R := R)) :
  (forall tr, no_engine tr ->
     Q tt (mkWorld (w_heap w) (w_next w) (w_engine w) (w_files w) (w_out w) (w_draws w)
                   (w_ticks w) (w_trace w ++ tr))) ->
  wp (run_records session recs) Q w.
Proof.
  revert w; induction recs as [|r rs IH]; intros w HQ; simpl.
  - unfold wp; simpl. destruct w; simpl in *.
    rewrite <- (app_nil_r w_trace0). apply HQ. constructor.
  - apply wp_bind. destruct r as [|[nm t] rest].
    + apply wp_ret. apply IH. exact HQ.
    + unfold wp at 1, run_artifact. cbn [w_heap w_next w_engine w_files w_out w_draws
                                         w_ticks w_trace].
      apply IH. intros tr Htr. cbn [w_heap w_next w_engine w_files w_out w_draws
                                    w_ticks w_trace].
      rewrite <- app_assoc. apply HQ.
      apply no_engine_app; [| exact Htr]. repeat constructor. intros b; discriminate.
Qed.

End WP2.

Ltac world_simpl :=
  cbn [w_heap w_next w_engine w_files w_out w_draws w_ticks w_trace t_id t_dims
       m_optimized m_params m_training m_fused m_qconfig m_stubs m_prepared m_observed
       m_quantized fst snd] in *.

(** One step of symbolic execution of a computation under [wp]. *)
Ltac wp_step :=
  lazymatch goal with
  | |- wp (mbind _ _) _ _ => apply wp_bind
  | |- wp (mret _) _ _ => apply wp_ret
  | |- wp mfail _ _ => exact I
  | |- wp (get_model _) _ _ =>
      unfold wp at 1, get_model at 1; world_simpl;
      repeat (first [rewrite lookup_insert_eq | rewrite lookup_insert_ne by lia]);
      lazymatch goal with
      | |- match (match ?h !! ?k with _ => _ end) with _ => _ end =>
          let Hl := fresh "Hl" in destruct (h !! k) eqn:Hl; [| exact I]
      | _ => idtac
      end; cbn beta iota
  | |- wp (put_model _ _) _ _ => unfold wp at 1, put_model at 1; world_simpl
  | |- wp (alloc _) _ _ => unfold wp at 1, alloc at 1; world_simpl
  | |- wp (set_engine _) _ _ =>
      unfold wp at 1, set_engine at 1;
      lazymatch goal with
      | |- match (if ?b then _ else _) with _ => _ end => destruct b; [world_simpl | exact I]
      end
  | |- wp (write_file _) _ _ => unfold wp at 1, write_file at 1; world_simpl
  | |- wp (print _) _ _ => unfold wp at 1, print at 1; world_simpl
  | |- wp (rand _) _ _ => unfold wp at 1, rand at 1; world_simpl
  | |- wp (deepcopy _) _ _ => unfold deepcopy
  | |- wp (model_eval _) _ _ => unfold model_eval
  | |- wp (model_fuse _) _ _ => unfold model_fuse
  | |- wp (prepare _) _ _ => unfold prepare
  | |- wp (convert _) _ _ => unfold convert
  | |- wp (model_call _ _) _ _ => unfold model_call
  | |- wp (script_and_serialize _ _ _) _ _ => unfold script_and_serialize
  | |- wp (trace_and_serialize _ _ _ _) _ _ => unfold trace_and_serialize
  | |- wp (onnx_export _ _ _) _ _ => unfold onnx_export
  | |- wp (quantize_static _ _ _) _ _ => unfold quantize_static
  | |- wp (quantize_pipeline _ _ _ _ _) _ _ => unfold quantize_pipeline
  | |- wp (report _) _ _ =>
      apply wp_report; intros ?r ?d ?t ?tr ?Htr; world_simpl
  | |- wp (report_onnx _) _ _ =>
      apply wp_report_onnx; intros ?r ?d ?t ?tr ?Htr; world_simpl
  | |- wp (dl_foreach _ _ (model_call _)) _ _ =>
      apply wp_dl_foreach_call; intros ?h ?d ?tr ?Hh ?Hhp ?Htr; world_simpl
  | |- wp (dl_collect _ _) _ _ =>
      apply wp_dl_collect; intros ?bs ?d ?tr ?Htr; world_simpl
  | |- wp (run_records _ _) _ _ =>
      apply wp_run_records; intros ?tr ?Htr; world_simpl
  | |- wp (if ?b then _ else _) _ _ => destruct b eqn:?
  | |- wp (match ?p with (_, _) => _ end) _ _ => destruct p
  end; cbn beta iota.

Ltac wp_run := repeat wp_step.

Ltac solve_no_engine :=
  unfold no_engine in *;
  repeat first [ assumption | apply Forall_app_2 | constructor | intros ?b; discriminate ].

Ltac solve_frame :=
  intros ?k ?Hk;
  repeat first [ rewrite lookup_insert_ne by lia
               | match goal with H : forall k, k <> _ -> _ !! k = _ |- _ =>
                   rewrite H by lia end ];
  reflexivity.

Ltac solve_trace :=
  eexists; split; [rewrite <- ?app_assoc; simpl; reflexivity | solve_no_engine].

Ltac solve_paths :=
  unfold quant_paths, nnapi_paths, onnx_paths, float_paths, fused_seg; simpl;
  rewrite <- ?app_assoc; simpl; rewrite ?string_app_assoc; reflexivity.

Ltac solve_out :=
  eexists; split; [rewrite <- ?app_assoc; simpl; reflexivity | solve_paths].

Section Orchestrators.
Context {R : Type} `{Runtime R}.

Lemma deploy_quantized_spec ds l fuse name backend (w : World (R := R)) :
  wp (deploy_quantized ds l fuse name backend) (fun _ w' =>
    (w_next w <= w_next w')%nat /\
    (forall k, (k < w_next w)%nat -> w_heap w' !! k = w_heap w !! k) /\
    w_engine w' = backend /\
    (exists tr, w_trace w' = w_trace w ++ EvEngine backend :: tr /\ no_engine tr) /\
    w_files w' = w_files w ++ quant_paths name fuse /\
    (exists L, w_out w' = w_out w ++ L /\
       map bench_meta L = bench_lines (quant_paths name fuse))) w.
Proof.
  unfold deploy_quantized. wp_run.
  all: split; [lia |]; split; [solve_frame |]; split; [reflexivity |];
       split; [solve_trace |]; split; [solve_paths | solve_out].
Qed.

Lemma deploy_nnapi_spec ds l fuse name backend (w : World (R := R)) :
  wp (deploy_nnapi ds l fuse name backend) (fun _ w' =>
    (w_next w <= w_next w')%nat /\
    (forall k, (k < w_next w)%nat -> w_heap w' !! k = w_heap w !! k) /\
    w_engine w' = backend /\
    (exists tr, w_trace w' = w_trace w ++ EvEngine backend :: tr /\ no_engine tr) /\
    w_files w' = w_files w ++ nnapi_paths name fuse /\
    w_out w' = w_out w) w.
Proof.
  unfold deploy_nnapi. wp_run.
  all: split; [lia |]; split; [solve_frame |]; split; [reflexivity |];
       split; [solve_trace |]; split; [solve_paths | reflexivity].
Qed.

Lemma deploy_onnx_quantized_spec ds l fuse name (w : World (R := R)) :
  wp (deploy_onnx_quantized ds l fuse name) (fun _ w' =>
    (w_next w <= w_next w')%nat /\
    (forall k, (k < w_next w)%nat -> w_heap w' !! k = w_heap w !! k) /\
    w_engine w' = w_engine w /\
    (exists tr, w_trace w' = w_trace w ++ tr /\ no_engine tr) /\
    w_files w' = w_files w ++ onnx_paths name fuse /\
    (exists L, w_out w' = w_out w ++ L /\
       map bench_meta L = bench_lines (onnx_paths name fuse))) w.
Proof.
  unfold deploy_onnx_quantized. wp_run.
  all: split; [lia |]; split; [solve_frame |]; split; [reflexivity |];
       split; [solve_trace |]; split; [solve_paths | solve_out].
Qed.

Lemma deploy_float_spec l name (w : World (R := R)) :
  wp (deploy_float l name) (fun _ w' =>
    w_next w' = w_next w /\
    (forall k, k <> l -> w_heap w' !! k = w_heap w !! k) /\
    (exists m m', w_heap w !! l = Some m /\ w_heap w' !! l = Some m' /\
       m_params m' = m_params m /\ m_training m' = false) /\
    w_engine w' = w_engine w /\
    (exists tr, w_trace w' = w_trace w ++ tr /\ no_engine tr) /\
    w_files w' = w_files w ++ float_paths name /\
    (exists L, w_out w' = w_out w ++ L /\
       map bench_meta L = bench_lines (float_paths name))) w.
Proof.
  unfold deploy_float. wp_run.
  all: split; [reflexivity |]; split; [intros ?k ?Hk; rewrite ?lookup_insert_ne by congruence; reflexivity |];
       split; [do 2 eexists; split; [reflexivity |];
               rewrite lookup_insert_eq; split; [reflexivity | split; reflexivity] |];
       split; [reflexivity |];
       split; [solve_trace |]; split; [solve_paths | solve_out].
Qed.

End Orchestrators.


(** ** Call sequences *)

Section Calls.
Context {R : Type} `{Runtime R}.

Lemma wp_conseq {A} (c : M A) (P Q : A -> World (R := R) -> Prop) w :
  wp c P w -> (forall x w', P x w' -> Q x w') -> wp c Q w.
Proof. unfold wp. destruct (c w) as [[x w']|]; auto. Qed.

Lemma run_call_spec (c : Call) (w : World (R := R)) :
  wp (run_call c) (fun _ w' => call_post c w w') w.
Proof.
  destruct c as [l n | d l f n | d l f n b | d l f n b]; simpl run_call; unfold call_post.
  - eapply wp_conseq; [apply deploy_float_spec |].
    intros _ w' (Hn & Hfr & (m & m' & Hm & Hm' & Hp & _) & He & (tr & Htr & Hne) & Hf & Ho).
    split; [lia |]. split.
    { intros k _. destruct (decide (k = l)) as [-> | Hk].
      - rewrite Hm, Hm'. simpl. congruence.
      - rewrite Hfr by exact Hk. reflexivity. }
    split; [discriminate |]. split; [exact He |].
    split; [exists tr; split; [exact Htr | exact Hne] |]. split; assumption.
  - eapply wp_conseq; [apply deploy_onnx_quantized_spec |].
    intros _ w' (Hn & Hfr & He & (tr & Htr & Hne) & Hf & Ho).
    split; [lia |]. split; [intros k Hk; rewrite Hfr by exact Hk; reflexivity |].
    split; [intros _; exact Hfr |]. split; [exact He |].
    split; [exists tr; split; [exact Htr | exact Hne] |]. split; assumption.
  - eapply wp_conseq; [apply deploy_quantized_spec |].
    intros _ w' (Hn & Hfr & He & (tr & Htr & Hne) & Hf & Ho).
    split; [lia |]. split; [intros k Hk; rewrite Hfr by exact Hk; reflexivity |].
    split; [intros _; exact Hfr |]. split; [exact He |].
    split; [exists tr; split; [exact Htr | exact Hne] |]. split; assumption.
  - eapply wp_conseq; [apply deploy_nnapi_spec |].
    intros _ w' (Hn & Hfr & He & (tr & Htr & Hne) & Hf & Ho).
    split; [lia |]. split; [intros k Hk; rewrite Hfr by exact Hk; reflexivity |].
    split; [intros _; exact Hfr |]. split; [exact He |].
    split; [exists tr; split; [exact Htr | exact Hne] |]. split; [exact Hf |].
    exists []. rewrite app_nil_r. split; [exact Ho | reflexivity].
Qed.

Lemma calls_post_nil (w : World (R := R)) : calls_post [] w w.
Proof.
  unfold calls_post. split; [lia |]. split; [reflexivity |]. split; [reflexivity |].
  split; [reflexivity |].
  split; [exists []; simpl; rewrite app_nil_r; split; [reflexivity | split; constructor] |].
  split; [simpl; rewrite app_nil_r; reflexivity |].
  exists []. simpl. rewrite app_nil_r. split; reflexivity.
Qed.

Lemma run_calls_spec (cs : list Call) (w : World (R := R)) :
  wp (run_calls cs) (fun _ w' => calls_post cs w w') w.
Proof.
  revert w. induction cs as [|c cs IH]; intros w.
  - apply wp_ret. apply calls_post_nil.
  - unfold run_calls. simpl map. simpl run_steps. apply wp_bind.
    eapply wp_conseq; [apply run_call_spec |]. intros ? w1 Hc.
    eapply wp_conseq; [apply IH |]. intros ? w2 Hcs.
    destruct Hc as (Hn1 & Hp1 & Hc1 & He1 & (tr & Ht1 & Hne) & Hf1 & (L1 & Ho1 & HL1)).
    destruct Hcs as (Hn2 & Hp2 & Hc2 & He2 & (trs & Hlen & Hnes & Ht2) & Hf2 & (L2 & Ho2 & HL2)).
    unfold calls_post. split; [lia |]. split.
    { intros k Hk. rewrite Hp2 by lia. apply Hp1, Hk. }
    split.
    { simpl. intros Hall k Hk. apply andb_prop in Hall as [Ha Hb].
      rewrite Hc2 by (exact Hb || lia). apply Hc1; assumption. }
    split; [simpl; rewrite He2, He1; reflexivity |].
    split.
    { exists (tr :: trs). split; [simpl; lia |]. split; [constructor; assumption |].
      rewrite Ht2, Ht1. unfold calls_trace. simpl. rewrite <- !app_assoc. reflexivity. }
    split; [rewrite Hf2, Hf1; simpl; rewrite app_assoc; reflexivity |].
    exists (L1 ++ L2). split; [rewrite Ho2, Ho1, app_assoc; reflexivity |].
    rewrite map_app, HL1, HL2. reflexivity.
Qed.

Lemma variant_steps_calls ds l name :
  variant_steps (R := R) ds l name = training_loop :: map run_call (variant_calls ds l name).
Proof. reflexivity. Qed.

Lemma wp_variant_prefix ds l name k Q (w : World (R := R)) :
  (forall w', calls_post (firstn (pred k) (variant_calls ds l name)) w w' -> Q tt w') ->
  wp (run_steps (firstn k (variant_steps ds l name))) Q w.
Proof.
  intros HQ. rewrite variant_steps_calls. destruct k as [|k].
  - apply wp_ret. apply HQ, calls_post_nil.
  - cbn [firstn run_steps pred]. apply wp_bind. unfold training_loop. apply wp_ret.
    rewrite firstn_map. eapply wp_conseq; [apply run_calls_spec |].
    intros [] w'. apply HQ.
Qed.

Lemma bench_lines_meta (L : list (Line (R := R))) (ps : list string) :
  map bench_meta L = bench_lines ps -> map line_meta L = map (fun p => MBench p 2 2) ps.
Proof.
  revert ps. induction L as [|ln L IH]; intros [|p ps]; simpl; try discriminate; auto.
  destruct ln; simpl; intros Heq; [| discriminate].
  injection Heq as -> -> -> Hrest. f_equal. apply IH, Hrest.
Qed.

Lemma variant_reports ds l name :
  flat_map call_reports (variant_calls ds l name) = bench_lines (reported_paths name).
Proof. reflexivity. Qed.

(** The base object a variant constructs: its address and parameters. *)
Lemma main_variant_upto_spec optimized name k (w : World (R := R)) :
  wp (main_variant_upto optimized name k) (fun _ w' =>
    fmap m_params (w_heap w' !! w_next w) = Some (init_params optimized (w_draws w)) /\
    exists L, w_out w' = w_out w ++ LParams name
         (num_div (num_of_Z (n_params (ToyClassifier_init optimized))) (num_of_Z 1000000)) 2 :: L /\
       map bench_meta L = flat_map call_reports
                            (firstn (pred k) (variant_calls ToyDataset_init (w_next w) name))) w.
Proof.
  unfold main_variant_upto, ToyClassifier_new. wp_run.
  apply wp_variant_prefix. intros w' Hc.
  destruct Hc as (_ & Hp & _ & _ & _ & _ & (L & Ho & HL)). world_simpl.
  split.
  - rewrite Hp by lia. rewrite lookup_insert_eq. reflexivity.
  - exists L. rewrite Ho, <- app_assoc. split; [reflexivity | exact HL].
Qed.

End Calls.

(** ** Mutation isolation, artifacts, console, engine selector, training *)

(** C1 (code bug): [deploy_float] runs [model.eval()] on the caller's object
    itself, with no copy: the base classifier [main] built (address 0, in
    training mode) is in eval mode afterwards. *)
Lemma C1_deploy_float_mutates_caller :
  option_map m_training (w_heap main_world1 !! 0%nat) = Some true /\
  match deploy_float 0 "classifier" main_world1 with
  | Some (_, w') => option_map m_training (w_heap w' !! 0%nat) = Some false
  | None => False
  end.
Proof. split; vm_compute; reflexivity. Qed.

(** C3 (counterexample): [main] writes the fused quantized and NNAPI
    artifacts as [./classifier_quant_fused_...] and
    [./classifier_nnapi_fused_...]; none of the spec's
    [./classifier_fused_quant_...] / [./classifier_fused_nnapi_...] paths is
    written. *)
Lemma C3_counterexample :
  match main (R := Q) world0 with
  | Some (_, w) =>
      forallb (fun p => negb (existsb (String.eqb p) (w_files w)))
        (spec_quant_paths "classifier" true ++ spec_nnapi_paths "classifier" true) &&
      forallb (fun p => existsb (String.eqb p) (w_files w))
        (quant_paths "classifier" true ++ nnapi_paths "classifier" true)
  | None => false
  end = true.
Proof. vm_compute. reflexivity. Qed.

(** C4 (counterexample): [main] writes 26 artifacts but prints only 22
    artifact lines: the four NNAPI artifacts get none. *)
Lemma C4_counterexample :
  match main (R := Q) world0 with
  | Some (_, w) =>
      (length (w_files w),
       length (List.filter (fun ln => match ln with LBench _ _ _ _ _ => true | _ => false end)
                 (w_out w)))
  | None => (0%nat, 0%nat)
  end = (26%nat, 22%nat).
Proof. vm_compute. reflexivity. Qed.

Section Claims.
Context {R : Type} `{Runtime R}.

Lemma main_variant_upto_all optimized name :
  main_variant (R := R) optimized name = main_variant_upto optimized name 7.
Proof. reflexivity. Qed.

(** C3 (amended): a sequence of orchestrator calls appends exactly the
    files of [call_paths] in call order: [./{name}_float_scripted.pt],
    [./{name}_float_traced.pt], [./{name}_float_vulkan_traced.pt] for
    [deploy_float]; [./{name}[_fused]_float.onnx] and
    [./{name}[_fused]_quant.onnx] for [deploy_onnx_quantized];
    [./{name}_quant[_fused]_scripted.pt] and [./{name}_quant[_fused]_traced.pt]
    for [deploy_quantized]; [./{name}_nnapi[_fused]_traced.pt] and
    [./{name}_nnapi[_fused]_float_interface_traced.pt] for [deploy_nnapi]. *)
Theorem C3_artifact_paths_amended (cs : list Call) (w w' : World (R := R)) (x : unit)
    (Hrun : run_calls cs w = Some (x, w')) :
  w_files w' = w_files w ++ flat_map call_paths cs.
Proof.
  destruct (wp_run _ _ _ _ _ (run_calls_spec cs w) Hrun) as (_ & _ & _ & _ & _ & Hf & _).
  exact Hf.
Qed.

(** C4 (amended): one run of the loop body of [main] for a variant prints
    the parameter-count line (2 decimals) first, then exactly one line per
    float, ONNX and quantized artifact, in order, each with latency and size
    to 2 decimals, and no line for the NNAPI artifacts. *)
Theorem C4_console_amended (optimized : bool) (name : string) (w w' : World (R := R))
    (x : unit) (Hrun : main_variant optimized name w = Some (x, w')) :
  exists L, w_out w' = w_out w ++ L /\ map line_meta L = variant_console name.
Proof.
  rewrite main_variant_upto_all in Hrun.
  destruct (wp_run _ _ _ _ _ (main_variant_upto_spec optimized name 7 w) Hrun)
    as [_ (L & Ho & HL)].
  eexists. split; [exact Ho |]. unfold variant_console. cbn [map line_meta]. f_equal.
  apply bench_lines_meta. rewrite HL. reflexivity.
Qed.

(** C8: after a sequence of orchestrator calls the engine selector holds
    the backend of the last [deploy_quantized] / [deploy_nnapi] call (the
    initial value if there is none); each call's trace segment starts with
    its own selector assignment and no call changes the selector
    otherwise, so it is never restored. *)
Theorem C8_engine_selector (cs : list Call) (w w' : World (R := R)) (x : unit)
    (Hrun : run_calls cs w = Some (x, w')) :
  w_engine w' = last_engine cs (w_engine w) /\
  exists trs, length trs = length cs /\ Forall no_engine trs /\
              w_trace w' = w_trace w ++ calls_trace cs trs.
Proof.
  destruct (wp_run _ _ _ _ _ (run_calls_spec cs w) Hrun) as (_ & _ & _ & He & Ht & _).
  split; [exact He | exact Ht].
Qed.

(** C9: [training_loop] leaves the world unchanged, and at every point of
    the loop body of [main] the base classifier still holds the parameters
    it was initialised with from its random seed. *)
Theorem C9_never_trained (optimized : bool) (name : string) (k : nat)
    (w w' : World (R := R)) (x : unit)
    (Hrun : main_variant_upto optimized name k w = Some (x, w')) :
  training_loop w = Some (tt, w) /\
  fmap m_params (w_heap w' !! w_next w) = Some (init_params optimized (w_draws w)).
Proof.
  split; [reflexivity |].
  exact (proj1 (wp_run _ _ _ _ _ (main_variant_upto_spec optimized name k w) Hrun)).
Qed.

(** Every orchestrator call keeps the parameters of every object that
    existed before it; a sequence without [deploy_float] leaves those
    objects entirely unchanged. *)
Theorem X1_calls_keep_params (cs : list Call) (w w' : World (R := R)) (x : unit)
    (Hrun : run_calls cs w = Some (x, w')) :
  (forall k, (k < w_next w)%nat ->
     fmap m_params (w_heap w' !! k) = fmap m_params (w_heap w !! k)) /\
  (forallb copies cs = true ->
     forall k, (k < w_next w)%nat -> w_heap w' !! k = w_heap w !! k).
Proof.
  destruct (wp_run _ _ _ _ _ (run_calls_spec cs w) Hrun) as (_ & Hp & Hc & _).
  split; assumption.
Qed.

End Claims.

(** Witnesses on the first variant of [main]. *)

Lemma C3_witness :
  match run_calls (variant_calls ToyDataset_init 0 "classifier") main_world1 with
  | Some (_, w') =>
      w_files w' = w_files main_world1 ++
                   flat_map call_paths (variant_calls ToyDataset_init 0 "classifier")
  | None => False
  end.
Proof.
  assert (Hs : match run_calls (variant_calls ToyDataset_init 0 "classifier") main_world1 with Some _ => true | None => false end = true)
    by (vm_compute; reflexivity).
  destruct (run_calls (variant_calls ToyDataset_init 0 "classifier") main_world1) as [[x w']|] eqn:E; [| simpl in Hs; discriminate Hs].
  exact (C3_artifact_paths_amended _ main_world1 w' x E).
Defined.

Lemma C4_witness :
  match main_variant (R := Q) false "classifier" world0 with
  | Some (_, w') => exists L, w_out w' = w_out world0 ++ L /\
                              map line_meta L = variant_console "classifier"
  | None => False
  end.
Proof.
  assert (Hs : match main_variant (R := Q) false "classifier" world0 with Some _ => true | None => false end = true)
    by (vm_compute; reflexivity).
  destruct (main_variant (R := Q) false "classifier" world0) as [[x w']|] eqn:E; [| simpl in Hs; discriminate Hs].
  exact (C4_console_amended false "classifier" world0 w' x E).
Defined.

Lemma C8_witness :
  match run_calls (variant_calls ToyDataset_init 0 "classifier") main_world1 with
  | Some (_, w') => w_engine w' = "qnnpack"
  | None => False
  end.
Proof.
  assert (Hs : match run_calls (variant_calls ToyDataset_init 0 "classifier") main_world1 with Some _ => true | None => false end = true)
    by (vm_compute; reflexivity).
  destruct (run_calls (variant_calls ToyDataset_init 0 "classifier") main_world1) as [[x w']|] eqn:E; [| simpl in Hs; discriminate Hs].
  rewrite (proj1 (C8_engine_selector _ main_world1 w' x E)). vm_compute. reflexivity.
Defined.

Lemma C9_witness :
  match main_variant_upto (R := Q) false "classifier" 7 world0 with
  | Some (_, w') => training_loop world0 = Some (tt, world0) /\
      fmap m_params (w_heap w' !! 0%nat) = Some (init_params false 0)
  | None => False
  end.
Proof.
  assert (Hs : match main_variant_upto (R := Q) false "classifier" 7 world0 with Some _ => true | None => false end = true)
    by (vm_compute; reflexivity).
  destruct (main_variant_upto (R := Q) false "classifier" 7 world0) as [[x w']|] eqn:E; [| simpl in Hs; discriminate Hs].
  exact (C9_never_trained false "classifier" 7 world0 w' x E).
Defined.

Lemma X1_witness :
  match run_calls (variant_calls ToyDataset_init 0 "classifier") main_world1 with
  | Some (_, w') => fmap m_params (w_heap w' !! 0%nat) = fmap m_params (w_heap main_world1 !! 0%nat)
  | None => False
  end.
Proof.
  assert (Hs : match run_calls (variant_calls ToyDataset_init 0 "classifier") main_world1 with Some _ => true | None => false end = true)
    by (vm_compute; reflexivity).
  destruct (run_calls (variant_calls ToyDataset_init 0 "classifier") main_world1) as [[x w']|] eqn:E; [| simpl in Hs; discriminate Hs].
  apply (proj1 (X1_calls_keep_params _ main_world1 w' x E)). vm_compute. lia.
Defined.

(** ** Further properties of the code *)

(** X2: for a positive input-channel count and a positive stride, a
    [ConvBNReLU] block and an [OptimizedConvBNReLU] block, in either mode,
    map an (n, c, h, w) input with c equal to the block's input channels
    and h, w >= 1 to (n, out_channels, (h-1)/stride+1, (w-1)/stride+1);
    in training mode (the mode of a fresh block) batch norm rejects the
    output when it is (1, out_channels, 1, 1); every other 4-d input is
    rejected by the first convolution. *)
Theorem X2_block_shapes (t : bool) (cin cout s n c h w : Z) (Hcin : 0 < cin) (Hs : 0 < s) :
  let r := if (c =? cin) && (1 <=? h) && (1 <=? w) then
             if t && ((h - 1) / s + 1 =? 1) && ((w - 1) / s + 1 =? 1) && (n =? 1) then None
             else Some [n; cout; (h - 1) / s + 1; (w - 1) / s + 1]
           else None in
  layers_shape t (ConvBNReLU cin cout s) [n; c; h; w] = r /\
  layers_shape t (OptimizedConvBNReLU cin cout s) [n; c; h; w] = r.
Proof. exact (conv_blocks_shape t cin cout s n c h w Hcin Hs). Qed.

(** X3: for both variants, [ToyClassifier.forward] accepts only 4-d inputs
    (b, 3, h, w) with h, w >= 1 and maps each accepted one to
    (b, 1000, 1, 1).  In eval mode every such input is accepted; in
    training mode, the mode of a freshly constructed classifier, batch norm
    rejects exactly the inputs of batch size 1 with h, w <= 16, whose last
    block output is 1x1. *)
Theorem X3_forward_shape_any_input (optimized : bool) (s : list Z) :
  let spec (t : bool) :=
    match s with
    | [b; c; h; w] =>
        if (c =? 3) && (1 <=? h) && (1 <=? w) then
          if t && (h <=? 16) && (w <=? 16) && (b =? 1) then None else Some [b; 1000; 1; 1]
        else None
    | _ => None
    end in
  forward_shape (ToyClassifier_train false (ToyClassifier_init optimized)) s = spec false /\
  forward_shape (ToyClassifier_init optimized) s = spec true.
Proof.
  cbv zeta. split; [apply forward_shape_mode |].
  rewrite <- ToyClassifier_init_training. apply forward_shape_mode.
Qed.

(** X4: [_make_divisible(., 8)] is monotone on positive widths, and a
    width it returns is a fixed point of it. *)
Theorem X4_make_div8_monotone_idempotent (v1 v2 : Z) (H1 : 1 <= v1) (H12 : v1 <= v2) :
  make_div8 v1 <= make_div8 v2 /\ make_div8 (make_div8 v1) = make_div8 v1.
Proof.
  split.
  - rewrite !make_div8_eq by lia. cbv zeta.
    pose proof (Z.div_mod (v1 + 4) 8 ltac:(lia)).
    pose proof (Z.mod_pos_bound (v1 + 4) 8 ltac:(lia)).
    pose proof (Z.div_mod (v2 + 4) 8 ltac:(lia)).
    pose proof (Z.mod_pos_bound (v2 + 4) 8 ltac:(lia)).
    pose proof (Z.div_le_mono (v1 + 4) (v2 + 4) 8 ltac:(lia) ltac:(lia)).
    set (q1 := (v1 + 4) / 8) in *. set (q2 := (v2 + 4) / 8) in *.
    destruct (Z.max_spec 8 (q1 * 8)) as [[? ->] | [? ->]];
    destruct (Z.max_spec 8 (q2 * 8)) as [[? ->] | [? ->]];
    repeat match goal with |- context [?a <? ?b] => destruct (Z.ltb_spec a b) end; lia.
  - destruct (make_div8_spec v1 H1) as (Hm & H8 & _).
    pose proof (Z.div_mod (make_div8 v1) 8 ltac:(lia)) as Hd. rewrite Hm, Z.add_0_r in Hd.
    set (k := make_div8 v1 / 8) in *. rewrite Hd.
    rewrite make_div8_eq by lia. cbv zeta.
    replace ((8 * k + 4) / 8) with k.
    + rewrite Z.max_r by lia. destruct (Z.ltb_spec (10 * (k * 8)) (9 * (8 * k))); lia.
    + apply Z.div_unique with 4; lia.
Qed.

Lemma string_app_cancel_l (p a b : string) : p +:+ a = p +:+ b -> a = b.
Proof.
  induction p as [|c p IH]; intros Hab; [exact Hab |].
  apply IH. change (String c (p +:+ a) = String c (p +:+ b)) in Hab.
  injection Hab as Hab. exact Hab.
Qed.

Lemma variant_paths_nodup (name : string) : NoDup (variant_paths name).
Proof.
  change (variant_paths name) with
    ((fun s => "./" +:+ (name +:+ s)) <$>
       ["_float_scripted.pt"; "_float_traced.pt"; "_float_vulkan_traced.pt";
        "_float.onnx"; "_quant.onnx"; "_fused_float.onnx"; "_fused_quant.onnx";
        "_quant_scripted.pt"; "_quant_traced.pt";
        "_quant_fused_scripted.pt"; "_quant_fused_traced.pt";
        "_nnapi_fused_traced.pt"; "_nnapi_fused_float_interface_traced.pt"]).
  assert (Hinj : Inj eq eq (fun s => "./" +:+ (name +:+ s))).
  { intros a b Hab. apply (string_app_cancel_l name), (string_app_cancel_l "./"), Hab. }
  apply NoDup_fmap_2; [exact Hinj |].
  apply (bool_decide_unpack _). vm_compute. reflexivity.
Qed.

Section Extras.
Context {R : Type} `{Runtime R}.

Lemma main_variant_spec optimized name (w : World (R := R)) :
  wp (main_variant optimized name) (fun _ w' =>
    w_files w' = w_files w ++ variant_paths name /\ w_engine w' = "qnnpack" /\
    exists L, w_out w' = w_out w ++ L /\ map line_meta L = variant_console name) w.
Proof.
  rewrite main_variant_upto_all. unfold main_variant_upto, ToyClassifier_new. wp_run.
  apply wp_variant_prefix. intros w' (_ & _ & _ & He & _ & Hf & (L & Ho & HL)).
  world_simpl. split; [rewrite Hf; reflexivity |]. split; [rewrite He; reflexivity |].
  eexists. split; [rewrite Ho, <- app_assoc; reflexivity |].
  unfold variant_console. cbn [app map line_meta]. f_equal.
  apply bench_lines_meta. rewrite HL. reflexivity.
Qed.

(** X5: a run of one iteration of [main]'s loop (one variant, any name,
    any starting state) that completes adds thirteen files to the written
    artifacts, and they are pairwise distinct: no deployment call of the
    iteration overwrites another's artifact. *)
Theorem X5_variant_files_distinct (optimized : bool) (name : string) (w w' : World (R := R))
    (x : unit) (Hrun : main_variant optimized name w = Some (x, w')) :
  exists F, w_files w' = w_files w ++ F /\ NoDup F /\ length F = 13%nat.
Proof.
  destruct (wp_run _ _ _ _ _ (main_variant_spec optimized name w) Hrun) as (Hf & _).
  exists (variant_paths name). split; [exact Hf |].
  split; [apply variant_paths_nodup | reflexivity].
Qed.

(** X6: [deploy_onnx_quantized] with [fuse=True] under a name writes
    exactly the two ONNX files that an unfused call under that name
    followed by [_fused] writes, so the later of the two overwrites the
    other's artifacts. *)
Theorem X6_onnx_fused_alias (d d' : ToyDataset) (l l' : nat) (n : string)
    (w1 w1' w2 w2' : World (R := R)) (x y : unit)
    (H1 : deploy_onnx_quantized d l true n w1 = Some (x, w1'))
    (H2 : deploy_onnx_quantized d' l' false (n +:+ "_fused") w2 = Some (y, w2')) :
  w_files w1' = w_files w1 ++ ["./" +:+ n +:+ "_fused_float.onnx";
                               "./" +:+ n +:+ "_fused_quant.onnx"] /\
  w_files w2' = w_files w2 ++ ["./" +:+ n +:+ "_fused_float.onnx";
                               "./" +:+ n +:+ "_fused_quant.onnx"].
Proof.
  destruct (wp_run _ _ _ _ _ (run_call_spec (COnnx d l true n) w1) H1)
    as (_ & _ & _ & _ & _ & Hf1 & _).
  destruct (wp_run _ _ _ _ _ (run_call_spec (COnnx d' l' false (n +:+ "_fused")) w2) H2)
    as (_ & _ & _ & _ & _ & Hf2 & _).
  rewrite Hf1, Hf2. cbn [call_paths]. unfold onnx_paths, fused_seg.
  rewrite !string_app_assoc. split; reflexivity.
Qed.

(** X7: a run of [main] that completes writes, in order, the thirteen
    artifacts of the canonical variant and then the thirteen of the
    factored variant, 26 pairwise distinct paths in all; it leaves the
    quantized engine at "qnnpack"; and it appends to the console exactly
    the two variants' parameter-count and benchmark lines. *)
Theorem X7_main_summary (w w' : World (R := R)) (x : unit) (Hrun : main w = Some (x, w')) :
  w_files w' = w_files w ++ variant_paths "classifier" ++ variant_paths "optimized_classifier" /\
  NoDup (variant_paths "classifier" ++ variant_paths "optimized_classifier") /\
  length (variant_paths "classifier" ++ variant_paths "optimized_classifier") = 26%nat /\
  w_engine w' = "qnnpack" /\
  exists L, w_out w' = w_out w ++ L /\
    map line_meta L = variant_console "classifier" ++ variant_console "optimized_classifier".
Proof.
  assert (Hwp : wp main (fun _ w' =>
    w_files w' = w_files w ++ variant_paths "classifier" ++ variant_paths "optimized_classifier" /\
    w_engine w' = "qnnpack" /\
    exists L, w_out w' = w_out w ++ L /\
      map line_meta L = variant_console "classifier" ++ variant_console "optimized_classifier") w).
  { unfold main. apply wp_bind. eapply wp_conseq; [apply main_variant_spec |].
    intros ? w1 (Hf1 & _ & (L1 & Ho1 & HL1)).
    eapply wp_conseq; [apply main_variant_spec |].
    intros ? w2 (Hf2 & He2 & (L2 & Ho2 & HL2)).
    split; [rewrite Hf2, Hf1, app_assoc; reflexivity |]. split; [exact He2 |].
    exists (L1 ++ L2). rewrite Ho2, Ho1, app_assoc, map_app, HL1, HL2.
    split; reflexivity. }
  destruct (wp_run _ _ _ _ _ Hwp Hrun) as (Hf & He & Ho).
  split; [exact Hf |]. split; [apply (bool_decide_unpack _); vm_compute; reflexivity |].
  split; [reflexivity |]. split; assumption.
Qed.






End Extras.

Lemma X2_witness :
  0 < 3 /\ 0 < 2 /\
  layers_shape true (ConvBNReLU 3 24 2) [1; 3; 224; 224] = Some [1; 24; 112; 112] /\
  layers_shape true (OptimizedConvBNReLU 3 24 2) [1; 3; 1; 1] = None.
Proof.
  split; [lia |]. split; [lia |].
  destruct (X2_block_shapes true 3 24 2 1 3 224 224 ltac:(lia) ltac:(lia)) as [H1 _].
  destruct (X2_block_shapes true 3 24 2 1 3 1 1 ltac:(lia) ltac:(lia)) as [_ H2].
  split; [exact H1 | exact H2].
Defined.

Lemma X4_witness :
  1 <= 18 /\ 18 <= 36 /\
  make_div8 18 <= make_div8 36 /\ make_div8 (make_div8 18) = make_div8 18.
Proof.
  split; [lia |]. split; [lia |].
  exact (X4_make_div8_monotone_idempotent 18 36 ltac:(lia) ltac:(lia)).
Defined.

Lemma X7_witness :
  match main (R := Q) world0 with
  | Some (_, w') =>
      w_files w' = w_files world0 ++ variant_paths "classifier" ++
                   variant_paths "optimized_classifier" /\
      NoDup (variant_paths "classifier" ++ variant_paths "optimized_classifier") /\
      length (variant_paths "classifier" ++ variant_paths "optimized_classifier") = 26%nat /\
      w_engine w' = "qnnpack" /\
      exists L, w_out w' = w_out world0 ++ L /\
        map line_meta L = variant_console "classifier" ++ variant_console "optimized_classifier"
  | None => False
  end.
Proof.
  assert (Hs : match main (R := Q) world0 with Some _ => true | None => false end = true)
    by (vm_compute; reflexivity).
  destruct (main (R := Q) world0) as [[x w']|] eqn:E; [| simpl in Hs; discriminate Hs].
  exact (X7_main_summary world0 w' x E).
Defined.


Lemma X5_witness :
  match main_variant (R := Q) false "classifier" world0 with
  | Some (_, w') => exists F, w_files w' = w_files world0 ++ F /\ NoDup F /\ length F = 13%nat
  | None => False
  end.
Proof.
  assert (Hs : match main_variant (R := Q) false "classifier" world0 with Some _ => true | None => false end = true)
    by (vm_compute; reflexivity).
  destruct (main_variant (R := Q) false "classifier" world0) as [[x w']|] eqn:E; [| simpl in Hs; discriminate Hs].
  exact (X5_variant_files_distinct false "classifier" world0 w' x E).
Defined.

Lemma X6_witness :
  match deploy_onnx_quantized (R := Q) ToyDataset_init 0 true "classifier" main_world1,
        deploy_onnx_quantized (R := Q) ToyDataset_init 0 false ("classifier" +:+ "_fused")
          main_world1 with
  | Some (_, w1'), Some (_, w2') =>
      w_files w1' = w_files main_world1 ++ ["./" +:+ "classifier" +:+ "_fused_float.onnx";
                                            "./" +:+ "classifier" +:+ "_fused_quant.onnx"] /\
      w_files w2' = w_files main_world1 ++ ["./" +:+ "classifier" +:+ "_fused_float.onnx";
                                            "./" +:+ "classifier" +:+ "_fused_quant.onnx"]
  | _, _ => False
  end.
Proof.
  assert (Hs : match deploy_onnx_quantized (R := Q) ToyDataset_init 0 true "classifier" main_world1,
                     deploy_onnx_quantized (R := Q) ToyDataset_init 0 false ("classifier" +:+ "_fused")
                       main_world1 with
               | Some _, Some _ => true | _, _ => false end = true)
    by (vm_compute; reflexivity).
  destruct (deploy_onnx_quantized (R := Q) ToyDataset_init 0 true "classifier" main_world1)
    as [[x w1']|] eqn:E1; [| simpl in Hs; discriminate Hs].
  destruct (deploy_onnx_quantized (R := Q) ToyDataset_init 0 false ("classifier" +:+ "_fused")
              main_world1) as [[y w2']|] eqn:E2; [| simpl in Hs; discriminate Hs].
  exact (X6_onnx_fused_alias _ _ _ _ "classifier" _ _ _ _ x y E1 E2).
Defined.
